(** * PresentationRecorder: the capture / record session of the component

    A shallow embedding of [PresentationRecorder.tsx] (the complete variant,
    with the handlers [stopCamera], [stopTimer], [stopRecording],
    [startCamera], [startRecording], [startTimer], [downloadVideo] and the
    unmount cleanup), and of the two functions that differ in the older
    variant of the same component.

    The component keeps six refs and six React state variables; they are the
    fields of [State].  The browser objects the handlers talk to (the
    [MediaRecorder] objects, the interval timers, the tracks of the stream)
    are kept in the same record, together with the list of the calls made to
    them, in program order.

    Numbers are JavaScript numbers that hold integers here (epoch
    milliseconds, byte counts), modelled as [Z].  What the browser decides
    (does [getUserMedia] reject, is VP9 supported, does the encoder constructor
    throw, what [Date.now()] returns) is an argument of the handler that asks.
    The encoder only changes state through the component's own [start] and
    [stop] calls: device failures the component installs no handler for are
    outside the model.

    A handler runs to its end before the next event, and the component is
    rendered again in between: the state variables a handler reads are the
    current ones.  The callbacks that outlive a render (those of the
    recorder, of the interval and of the cleanup) read refs only. *)

From Stdlib Require Import String Ascii DecimalString.
From Stdlib Require Import List ZArith Bool Lia.
From Stdlib Require Decimal DecimalZ.
Import ListNotations.

Local Open Scope string_scope.
Local Open Scope list_scope.
Local Open Scope Z_scope.

(** ** Browser values *)

(** A [Blob]: its bytes and its MIME type. *)
Record Blob := mkBlob {
  blob_data : list Byte.byte;
  blob_type : string
}.

(** [blob.size] *)
Definition blob_size (b : Blob) : Z := Z.of_nat (length (blob_data b)).

(** [new Blob(parts, { type })]: the bytes of the parts, one after the other. *)
Definition newBlob (parts : list Blob) (type : string) : Blob :=
  mkBlob (concat (map blob_data parts)) type.

(** A [MediaStream] and the ids of its tracks. *)
Record MediaStream := mkStream {
  stream_id : nat;
  stream_tracks : list nat
}.

(** [MediaRecorder.state] *)
Inductive RecordingState := inactive | recording | paused.

(** A [MediaRecorder] object.  [rec_mimeType] is the [mimeType] its two
    handlers closed over; [rec_stopQueued] says that [stop()] was called and
    the browser has not yet fired the [stop] event. *)
Record MediaRecorder := mkRecorder {
  rec_stream : MediaStream;
  rec_mimeType : string;
  rec_state : RecordingState;
  rec_stopQueued : bool
}.

(** What a [catch (error)] clause receives. *)
Inductive Thrown :=
| ThrownError (message : string)   (* [error instanceof Error] *)
| ThrownOther.

(** [error instanceof Error ? error.message : 'Unknown error'] *)
Definition errorMessage (e : Thrown) : string :=
  match e with
  | ThrownError m => m
  | ThrownOther => "Unknown error"
  end.

(** The calls the component makes to browser objects. *)
Inductive Call :=
| CallRecorderNew (id : nat)
| CallRecorderStart (id : nat) (timeslice : Z)
| CallRecorderStop (id : nat)
| CallSetInterval (handle : nat) (delay : Z)
| CallClearInterval (handle : nat)
| CallTrackStop (track : nat).

(** ** The component's state *)

Record State := mkState {
  (* refs *)
  videoRef : option (option MediaStream);  (* the element's [srcObject]; [None]: no element *)
  mediaStreamRef : option MediaStream;
  mediaRecorderRef : option nat;           (* index in [recorders] *)
  recordedChunksRef : list Blob;
  timerIntervalRef : option nat;
  recordingStartTimeRef : option Z;
  (* React state *)
  isCameraActive : bool;
  isRecording : bool;
  recordedBlob : option Blob;
  status : string;
  cameraError : string;
  timer : string;
  (* browser objects *)
  recorders : list MediaRecorder;
  intervals : list nat;                    (* the running intervals *)
  nextHandle : nat;
  endedTracks : list nat;
  calls : list Call
}.

(** The double quote character, for the one message that holds it. *)
Definition dquote : string := String "034"%char EmptyString.

(** The state of a freshly mounted component. *)
Definition initialState : State :=
  mkState (Some None) None None [] None None
          false false None
          ("Click " ++ dquote ++ "Start Camera" ++ dquote ++ " to begin")%string
          EmptyString "00:00"
          [] [] 1%nat [] [].

(** ** Field updates

    [set_f v s] is [s] with field [f] replaced by [v]. *)

Definition set_videoRef (v : option (option MediaStream)) (s : State) : State :=
  mkState v (mediaStreamRef s) (mediaRecorderRef s) (recordedChunksRef s)
    (timerIntervalRef s) (recordingStartTimeRef s) (isCameraActive s)
    (isRecording s) (recordedBlob s) (status s) (cameraError s) (timer s)
    (recorders s) (intervals s) (nextHandle s) (endedTracks s) (calls s).

Definition set_mediaStreamRef (v : option MediaStream) (s : State) : State :=
  mkState (videoRef s) v (mediaRecorderRef s) (recordedChunksRef s)
    (timerIntervalRef s) (recordingStartTimeRef s) (isCameraActive s)
    (isRecording s) (recordedBlob s) (status s) (cameraError s) (timer s)
    (recorders s) (intervals s) (nextHandle s) (endedTracks s) (calls s).

Definition set_mediaRecorderRef (v : option nat) (s : State) : State :=
  mkState (videoRef s) (mediaStreamRef s) v (recordedChunksRef s)
    (timerIntervalRef s) (recordingStartTimeRef s) (isCameraActive s)
    (isRecording s) (recordedBlob s) (status s) (cameraError s) (timer s)
    (recorders s) (intervals s) (nextHandle s) (endedTracks s) (calls s).

Definition set_recordedChunksRef (v : list Blob) (s : State) : State :=
  mkState (videoRef s) (mediaStreamRef s) (mediaRecorderRef s) v
    (timerIntervalRef s) (recordingStartTimeRef s) (isCameraActive s)
    (isRecording s) (recordedBlob s) (status s) (cameraError s) (timer s)
    (recorders s) (intervals s) (nextHandle s) (endedTracks s) (calls s).

Definition set_timerIntervalRef (v : option nat) (s : State) : State :=
  mkState (videoRef s) (mediaStreamRef s) (mediaRecorderRef s)
    (recordedChunksRef s) v (recordingStartTimeRef s) (isCameraActive s)
    (isRecording s) (recordedBlob s) (status s) (cameraError s) (timer s)
    (recorders s) (intervals s) (nextHandle s) (endedTracks s) (calls s).

Definition set_recordingStartTimeRef (v : option Z) (s : State) : State :=
  mkState (videoRef s) (mediaStreamRef s) (mediaRecorderRef s)
    (recordedChunksRef s) (timerIntervalRef s) v (isCameraActive s)
    (isRecording s) (recordedBlob s) (status s) (cameraError s) (timer s)
    (recorders s) (intervals s) (nextHandle s) (endedTracks s) (calls s).

Definition set_isCameraActive (v : bool) (s : State) : State :=
  mkState (videoRef s) (mediaStreamRef s) (mediaRecorderRef s)
    (recordedChunksRef s) (timerIntervalRef s) (recordingStartTimeRef s) v
    (isRecording s) (recordedBlob s) (status s) (cameraError s) (timer s)
    (recorders s) (intervals s) (nextHandle s) (endedTracks s) (calls s).

Definition set_isRecording (v : bool) (s : State) : State :=
  mkState (videoRef s) (mediaStreamRef s) (mediaRecorderRef s)
    (recordedChunksRef s) (timerIntervalRef s) (recordingStartTimeRef s)
    (isCameraActive s) v (recordedBlob s) (status s) (cameraError s)
    (timer s) (recorders s) (intervals s) (nextHandle s) (endedTracks s)
    (calls s).

Definition set_recordedBlob (v : option Blob) (s : State) : State :=
  mkState (videoRef s) (mediaStreamRef s) (mediaRecorderRef s)
    (recordedChunksRef s) (timerIntervalRef s) (recordingStartTimeRef s)
    (isCameraActive s) (isRecording s) v (status s) (cameraError s)
    (timer s) (recorders s) (intervals s) (nextHandle s) (endedTracks s)
    (calls s).

Definition set_status (v : string) (s : State) : State :=
  mkState (videoRef s) (mediaStreamRef s) (mediaRecorderRef s)
    (recordedChunksRef s) (timerIntervalRef s) (recordingStartTimeRef s)
    (isCameraActive s) (isRecording s) (recordedBlob s) v (cameraError s)
    (timer s) (recorders s) (intervals s) (nextHandle s) (endedTracks s)
    (calls s).

Definition set_cameraError (v : string) (s : State) : State :=
  mkState (videoRef s) (mediaStreamRef s) (mediaRecorderRef s)
    (recordedChunksRef s) (timerIntervalRef s) (recordingStartTimeRef s)
    (isCameraActive s) (isRecording s) (recordedBlob s) (status s) v
    (timer s) (recorders s) (intervals s) (nextHandle s) (endedTracks s)
    (calls s).

Definition set_timer (v : string) (s : State) : State :=
  mkState (videoRef s) (mediaStreamRef s) (mediaRecorderRef s)
    (recordedChunksRef s) (timerIntervalRef s) (recordingStartTimeRef s)
    (isCameraActive s) (isRecording s) (recordedBlob s) (status s)
    (cameraError s) v (recorders s) (intervals s) (nextHandle s)
    (endedTracks s) (calls s).

Definition set_recorders (v : list MediaRecorder) (s : State) : State :=
  mkState (videoRef s) (mediaStreamRef s) (mediaRecorderRef s)
    (recordedChunksRef s) (timerIntervalRef s) (recordingStartTimeRef s)
    (isCameraActive s) (isRecording s) (recordedBlob s) (status s)
    (cameraError s) (timer s) v (intervals s) (nextHandle s) (endedTracks s)
    (calls s).

Definition set_intervals (v : list nat) (s : State) : State :=
  mkState (videoRef s) (mediaStreamRef s) (mediaRecorderRef s)
    (recordedChunksRef s) (timerIntervalRef s) (recordingStartTimeRef s)
    (isCameraActive s) (isRecording s) (recordedBlob s) (status s)
    (cameraError s) (timer s) (recorders s) v (nextHandle s) (endedTracks s)
    (calls s).

Definition set_nextHandle (v : nat) (s : State) : State :=
  mkState (videoRef s) (mediaStreamRef s) (mediaRecorderRef s)
    (recordedChunksRef s) (timerIntervalRef s) (recordingStartTimeRef s)
    (isCameraActive s) (isRecording s) (recordedBlob s) (status s)
    (cameraError s) (timer s) (recorders s) (intervals s) v (endedTracks s)
    (calls s).

Definition set_endedTracks (v : list nat) (s : State) : State :=
  mkState (videoRef s) (mediaStreamRef s) (mediaRecorderRef s)
    (recordedChunksRef s) (timerIntervalRef s) (recordingStartTimeRef s)
    (isCameraActive s) (isRecording s) (recordedBlob s) (status s)
    (cameraError s) (timer s) (recorders s) (intervals s) (nextHandle s) v
    (calls s).

Definition set_calls (v : list Call) (s : State) : State :=
  mkState (videoRef s) (mediaStreamRef s) (mediaRecorderRef s)
    (recordedChunksRef s) (timerIntervalRef s) (recordingStartTimeRef s)
    (isCameraActive s) (isRecording s) (recordedBlob s) (status s)
    (cameraError s) (timer s) (recorders s) (intervals s) (nextHandle s)
    (endedTracks s) v.

(** ** JavaScript library functions *)

(** [String(n)] for an integer [n]. *)
Definition String_ (n : Z) : string := NilZero.string_of_int (Z.to_int n).

(** [k] characters of [pad] repeated, starting at [cur] within it. *)
Fixpoint cycle (k : nat) (cur pad : string) : string :=
  match k with
  | O => EmptyString
  | S k' =>
      match cur with
      | String c rest => String c (cycle k' rest pad)
      | EmptyString =>
          match pad with
          | String c rest => String c (cycle k' rest pad)
          | EmptyString => EmptyString
          end
      end
  end.

(** [s.padStart(targetLength, padString)] *)
Definition padStart (targetLength : nat) (padString s : string) : string :=
  (cycle (targetLength - String.length s) padString padString ++ s)%string.

(** [s.replace(/[:.]/g, '-')] *)
Fixpoint replaceColonDot (s : string) : string :=
  match s with
  | EmptyString => EmptyString
  | String c rest =>
      String (if (Ascii.eqb c ":" || Ascii.eqb c ".")%bool then "-"%char else c)
             (replaceColonDot rest)
  end.

(** [(size / 1024 / 1024).toFixed(2)] for a byte count [size].  Dividing by
    1024 twice is exact on doubles, and [toFixed(2)] picks the integer [n]
    with [n/100] nearest to the value, the larger one on a tie: that is
    [n = floor((200*size + 2^20) / 2^21)]. *)
Definition megabytesToFixed2 (size : Z) : string :=
  let n := (200 * size + 1048576) / 2097152 in
  (String_ (n / 100) ++ "." ++ padStart 2 "0" (String_ (n mod 100)))%string.

(** [list[i] := f(list[i])] *)
Fixpoint updateAt {A} (i : nat) (f : A -> A) (l : list A) : list A :=
  match l, i with
  | [], _ => []
  | x :: l', O => f x :: l'
  | x :: l', S i' => x :: updateAt i' f l'
  end.

(** ** Browser operations *)

(** [track.stop()] on each track, in order. *)
Fixpoint stopTracks (tracks : list nat) (s : State) : State :=
  match tracks with
  | [] => s
  | t :: rest =>
      stopTracks rest
        (set_calls (calls s ++ [CallTrackStop t])
           (set_endedTracks (endedTracks s ++ [t]) s))
  end.

(** [clearInterval(handle)] *)
Definition clearInterval (handle : nat) (s : State) : State :=
  set_calls (calls s ++ [CallClearInterval handle])
    (set_intervals (filter (fun h => negb (Nat.eqb h handle)) (intervals s)) s).

(** [setInterval(callback, delay)]: the new handle and the state. *)
Definition setInterval (delay : Z) (s : State) : nat * State :=
  let h := nextHandle s in
  (h, set_calls (calls s ++ [CallSetInterval h delay])
        (set_nextHandle (S h) (set_intervals (intervals s ++ [h]) s))).

(** [state !== 'inactive'] *)
Definition notInactive (st : RecordingState) : bool :=
  match st with
  | inactive => false
  | _ => true
  end.

(** What [stop()] does to a recorder: one that is not inactive becomes
    inactive at once and its [stop] event is queued; an inactive one stays as
    it is. *)
Definition stopped (r : MediaRecorder) : MediaRecorder :=
  if notInactive (rec_state r)
  then mkRecorder (rec_stream r) (rec_mimeType r) inactive true
  else r.

(** What [start()] does to a recorder. *)
Definition started (r : MediaRecorder) : MediaRecorder :=
  mkRecorder (rec_stream r) (rec_mimeType r) recording (rec_stopQueued r).

(** The recorder once the browser has taken its [stop] event off the queue. *)
Definition dequeued (r : MediaRecorder) : MediaRecorder :=
  mkRecorder (rec_stream r) (rec_mimeType r) (rec_state r) false.

(** [recorder.stop()] *)
Definition recorderStop (id : nat) (s : State) : State :=
  set_calls (calls s ++ [CallRecorderStop id])
    (set_recorders (updateAt id stopped (recorders s)) s).

(** The recorder [mediaRecorderRef.current] points to, if any. *)
Definition currentRecorder (s : State) : option (nat * MediaRecorder) :=
  match mediaRecorderRef s with
  | Some id =>
      match nth_error (recorders s) id with
      | Some r => Some (id, r)
      | None => None
      end
  | None => None
  end.

(** ** The handlers of the component *)

Definition stopCamera (s : State) : State :=
  match mediaStreamRef s with
  | Some stream =>
      let s1 := stopTracks (stream_tracks stream) s in
      let s2 := set_mediaStreamRef None s1 in
      let s3 := match videoRef s2 with
                | Some _ => set_videoRef (Some None) s2
                | None => s2
                end in
      set_isCameraActive false s3
  | None => s
  end.

Definition stopTimer (s : State) : State :=
  match timerIntervalRef s with
  | Some handle => set_timerIntervalRef None (clearInterval handle s)
  | None => s
  end.

Definition stopRecording (s : State) : State :=
  match currentRecorder s with
  | Some (id, r) =>
      if notInactive (rec_state r)
      then stopTimer (set_isRecording false (recorderStop id s))
      else s
  | None => s
  end.

(** The cleanup function of the effect, run on unmount. *)
Definition cleanup (s : State) : State :=
  stopCamera (stopRecording s).

(** How [navigator.mediaDevices.getUserMedia] settles. *)
Inductive GetUserMedia :=
| Resolved (stream : MediaStream)
| Rejected (error : Thrown).

(** [startCamera], from the point where the awaited promise settles; [s] is
    the state at that point. *)
Definition startCamera (result : GetUserMedia) (s : State) : State :=
  match result with
  | Resolved stream =>
      let s1 := set_mediaStreamRef (Some stream) s in
      let s2 := match videoRef s1 with
                | Some _ => set_videoRef (Some (Some stream)) s1
                | None => s1
                end in
      set_status "Click to Start Recording"
        (set_cameraError EmptyString (set_isCameraActive true s2))
  | Rejected error =>
      let errorMessage := errorMessage error in
      set_status "Failed to access camera"
        (set_cameraError ("Camera Error: " ++ errorMessage)%string s)
  end.

Definition startTimer (now : Z) (s : State) : State :=
  let s1 := set_recordingStartTimeRef (Some now) s in
  let (handle, s2) := setInterval 1000 s1 in
  set_timerIntervalRef (Some handle) s2.

(** The callback [startTimer] gives to [setInterval]; [now] is [Date.now()]. *)
Definition timerCallback (now : Z) (s : State) : State :=
  match recordingStartTimeRef s with
  | None => s
  | Some start =>
      let elapsed := (now - start) / 1000 in
      let minutes := elapsed / 60 in
      let seconds := Z.rem elapsed 60 in
      set_timer (padStart 2 "0" (String_ minutes) ++ ":"
                 ++ padStart 2 "0" (String_ seconds))%string s
  end.

(** [recorder.ondataavailable] *)
Definition ondataavailable (data : Blob) (s : State) : State :=
  if 0 <? blob_size data
  then set_recordedChunksRef (recordedChunksRef s ++ [data]) s
  else s.

(** [recorder.onstop], for a recorder created with [mimeType]. *)
Definition onstop (mimeType : string) (s : State) : State :=
  let blob := newBlob (recordedChunksRef s) mimeType in
  set_status ("Recording complete! Size: "
              ++ megabytesToFixed2 (blob_size blob) ++ " MB")%string
    (set_recordedBlob (Some blob) s).

(** What the browser does with the encoder [startRecording] asks for. *)
Inductive EncoderOutcome :=
| EncoderOk
| ConstructorThrows (error : Thrown)     (* [new MediaRecorder(...)] throws *)
| StartThrows (error : Thrown).          (* [recorder.start(100)] throws *)

(** [new MediaRecorder(stream, { mimeType, ... })]: the new object's index. *)
Definition newMediaRecorder (stream : MediaStream) (mimeType : string)
    (s : State) : nat * State :=
  let id := length (recorders s) in
  (id, set_calls (calls s ++ [CallRecorderNew id])
         (set_recorders (recorders s ++ [mkRecorder stream mimeType inactive false]) s)).

(** [recorder.start(timeslice)] *)
Definition recorderStart (id : nat) (timeslice : Z) (s : State) : State :=
  set_calls (calls s ++ [CallRecorderStart id timeslice])
    (set_recorders (updateAt id started (recorders s)) s).

(** [startRecording].  [vp9] is the answer of
    [MediaRecorder.isTypeSupported('video/webm; codecs=vp9')], [now] that of
    [Date.now()]. *)
Definition startRecording (vp9 : bool) (outcome : EncoderOutcome) (now : Z)
    (s : State) : State :=
  match isCameraActive s, mediaStreamRef s with
  | true, Some stream =>
      let s1 := set_recordedBlob None (set_recordedChunksRef [] s) in
      let mimeType : string :=
        if vp9 then "video/webm; codecs=vp9" else "video/webm" in
      let failed error :=
        set_status ("Failed to start recording: " ++ errorMessage error)%string in
      match outcome with
      | ConstructorThrows error => failed error s1
      | StartThrows error =>
          failed error (snd (newMediaRecorder stream mimeType s1))
      | EncoderOk =>
          let (recorder, s2) := newMediaRecorder stream mimeType s1 in
          let s3 := recorderStart recorder 100 s2 in
          let s4 := set_mediaRecorderRef (Some recorder) s3 in
          let s5 := set_isRecording true s4 in
          set_status "RECORDING..." (startTimer now s5)
      end
  | _, _ => set_status "Camera not active" s
  end.

(** What [downloadVideo] hands to the browser: the anchor it clicks. *)
Record Download := mkDownload {
  href : Blob;            (* the blob behind [URL.createObjectURL] *)
  download : string       (* the [download] attribute: the file name *)
}.

(** [downloadVideo].  [iso] is [new Date().toISOString()]. *)
Definition downloadVideo (iso : string) (s : State) : option Download * State :=
  match recordedBlob s with
  | None => (None, s)
  | Some blob =>
      (Some (mkDownload blob
               ("presentation_" ++ replaceColonDot iso ++ ".webm")%string),
       set_status "Video downloaded successfully!" s)
  end.

(** ** The older variant of the component

    It differs in [stopRecording], which tests the [isRecording] flag instead
    of the recorder's state, and in the cleanup of the effect, which calls
    [stopRecording] only when [isRecording] holds.  Its effect depends on
    [isRecording], so the cleanup that runs is the one of the last render and
    reads the current flag.  The other handlers it shows are the same text;
    its [stopTimer] is not shown and is taken to be the one above. *)
Module Older.

Definition stopRecording (s : State) : State :=
  match mediaRecorderRef s, isRecording s with
  | Some id, true => stopTimer (set_isRecording false (recorderStop id s))
  | _, _ => s
  end.

Definition cleanup (s : State) : State :=
  stopCamera (if isRecording s then stopRecording s else s).

(** The same two functions as a render closed over them: [captured] is the
    [isRecording] of that render. *)
Definition stopRecordingOf (captured : bool) (s : State) : State :=
  match mediaRecorderRef s, captured with
  | Some id, true => stopTimer (set_isRecording false (recorderStop id s))
  | _, _ => s
  end.

Definition cleanupOf (captured : bool) (s : State) : State :=
  stopCamera (if captured then stopRecordingOf captured s else s).

(** The effect lists [isRecording] as its dependency: when a render commits
    with a flag other than the one of the render that set the effect up,
    React runs the cleanup that render left, before setting the effect up
    again. *)
Definition commit (captured : bool) (s : State) : State :=
  if Bool.eqb captured (isRecording s) then s else cleanupOf captured s.

End Older.

(** ** What the component renders *)

(** The conditions under which the four buttons are rendered. *)
Definition offersStartCamera (s : State) : bool := negb (isCameraActive s).
Definition offersStartRecording (s : State) : bool :=
  isCameraActive s && negb (isRecording s).
Definition offersStopRecording (s : State) : bool := isRecording s.
Definition offersDownload (s : State) : bool :=
  match recordedBlob s with Some _ => true | None => false end.

(** The camera area: the video is hidden without a camera, the error text is
    shown when there is one, the placeholder when there is neither. *)
Definition hidesVideo (s : State) : bool := negb (isCameraActive s).
Definition showsError (s : State) : bool :=
  negb (String.eqb (cameraError s) EmptyString).
Definition showsPlaceholder (s : State) : bool :=
  negb (isCameraActive s) && negb (showsError s).

(** ** The observable session state

    The component stores no session state: the specification derives it from
    the flags.  Without a camera the session is idle; with one it is
    recording, or holds a finished recording, or is ready. *)
Inductive SessionState := Idle | CameraReady | Recording | Recorded.

Definition hasArtifact (s : State) : bool := offersDownload s.

Definition sessionState (s : State) : SessionState :=
  if negb (isCameraActive s) then Idle
  else if isRecording s then Recording
  else if hasArtifact s then Recorded
  else CameraReady.

(** A recording session is active: the recorder the component holds is not
    inactive (the test of [stopRecording]). *)
Definition recorderActive (s : State) : bool :=
  match currentRecorder s with
  | Some (_, r) => notInactive (rec_state r)
  | None => false
  end.

(** ** Events

    The user's clicks and the callbacks the browser runs.  The unmount is
    no event: it ends the component (React empties the refs of its elements
    and drops what the setters are given afterwards), and what its cleanup
    does is studied on [cleanup] itself. *)
Inductive Event :=
| EvStartCamera (result : GetUserMedia)
| EvStartRecording (vp9 : bool) (outcome : EncoderOutcome) (now : Z)
| EvStopRecording
| EvDownload (iso : string)
| EvDataAvailable (id : nat) (data : Blob)   (* [dataavailable] on recorder [id] *)
| EvStop (id : nat)                          (* [stop] on recorder [id] *)
| EvTick (handle : nat) (now : Z).           (* interval [handle] fires *)

(** The browser takes the queued [stop] event of recorder [id] off its queue. *)
Definition dequeueStop (id : nat) (s : State) : State :=
  set_recorders (updateAt id dequeued (recorders s)) s.

(** One event.  [None]: the browser cannot produce it in this state (data
    from a recorder that does not record and has no [stop] queued, a [stop]
    event nobody queued, a tick of an interval that is not running). *)
Definition step (e : Event) (s : State) : option State :=
  match e with
  | EvStartCamera result => Some (startCamera result s)
  | EvStartRecording vp9 outcome now => Some (startRecording vp9 outcome now s)
  | EvStopRecording => Some (stopRecording s)
  | EvDownload iso => Some (snd (downloadVideo iso s))
  | EvDataAvailable id data =>
      match nth_error (recorders s) id with
      | Some r =>
          if notInactive (rec_state r) || rec_stopQueued r
          then Some (ondataavailable data s)
          else None
      | None => None
      end
  | EvStop id =>
      match nth_error (recorders s) id with
      | Some r =>
          if rec_stopQueued r
          then Some (onstop (rec_mimeType r) (dequeueStop id s))
          else None
      | None => None
      end
  | EvTick handle now =>
      if existsb (Nat.eqb handle) (intervals s)
      then Some (timerCallback now s)
      else None
  end.

(** A sequence of events, in order. *)
Fixpoint run (tr : list Event) (s : State) : option State :=
  match tr with
  | [] => Some s
  | e :: tr' =>
      match step e s with
      | Some s' => run tr' s'
      | None => None
      end
  end.

(** The button whose click is event [e] is rendered.  The events that are no
    click (the promise of [getUserMedia] settling, the browser's callbacks)
    wait for no button. *)
Definition offered (e : Event) (s : State) : bool :=
  match e with
  | EvStartRecording _ _ _ => offersStartRecording s
  | EvStopRecording => offersStopRecording s
  | EvDownload _ => offersDownload s
  | _ => true
  end.

(** A sequence of events in which every click is on a rendered button. *)
Fixpoint runOffered (tr : list Event) (s : State) : option State :=
  match tr with
  | [] => Some s
  | e :: tr' =>
      if offered e s
      then match step e s with
           | Some s' => runOffered tr' s'
           | None => None
           end
      else None
  end.

(** The states the component can be in. *)
Definition reachable (s : State) : Prop :=
  exists tr, run tr initialState = Some s.

(** ** The invariant of the flags

    The camera flag says whether a stream is held; the recording flag says
    whether the held recorder is active, and whether an interval handle is
    held; and nothing records without a camera. *)
Definition isSome {A} (o : option A) : bool :=
  match o with Some _ => true | None => false end.

Definition wf (s : State) : bool :=
  Bool.eqb (isCameraActive s) (isSome (mediaStreamRef s))
  && Bool.eqb (isRecording s) (recorderActive s)
  && Bool.eqb (isSome (timerIntervalRef s)) (isRecording s)
  && implb (isRecording s) (isCameraActive s).

(** ** Scenarios used as instances *)

Definition frontCamera : MediaStream := mkStream 0 [0%nat; 1%nat].

Definition fragment (n : nat) : Blob := mkBlob (repeat Byte.x2a n) "video/webm".

(** The camera was acquired. *)
Definition cameraReady : State := startCamera (Resolved frontCamera) initialState.

(** A recording, started at instant 1000, is running. *)
Definition recordingNow : State := startRecording true EncoderOk 1000 cameraReady.

(** Fragments of 10, 0, 20, 5 and 0 bytes arrived. *)
Definition fiveFragments : State :=
  fold_left (fun s n => ondataavailable (fragment n) s)
    [10%nat; 0%nat; 20%nat; 5%nat; 0%nat] recordingNow.

(** The user stopped; the [stop] event has not fired yet. *)
Definition stoppedNow : State := stopRecording fiveFragments.

(** The [stop] event fired: the recording is there. *)
Definition recordedNow : State :=
  onstop "video/webm; codecs=vp9" (dequeueStop 0 stoppedNow).

(** A first recording that ran for seven seconds, and the start of a second
    one. *)
Definition secondRecording : list Event :=
  [EvStartCamera (Resolved frontCamera);
   EvStartRecording true EncoderOk 1000;
   EvTick 1 8000;
   EvStopRecording;
   EvStop 0;
   EvStartRecording true EncoderOk 20000].

(** ** Reading a label back

    The order of labels is that of the seconds they stand for, not that of
    the strings (["100:00"] comes after ["99:59"]). *)

(** The text before the first colon and the text after it. *)
Fixpoint splitColon (s : string) : option (string * string) :=
  match s with
  | EmptyString => None
  | String c rest =>
      if Ascii.eqb c ":" then Some (EmptyString, rest)
      else match splitColon rest with
           | Some (m, sec) => Some (String c m, sec)
           | None => None
           end
  end.

(** The seconds a label [minutes:seconds] of decimal digits stands for. *)
Definition labelSeconds (label : string) : option Z :=
  match splitColon label with
  | Some (m, sec) =>
      match NilEmpty.uint_of_string m, NilEmpty.uint_of_string sec with
      | Some dm, Some ds => Some (60 * Z.of_uint dm + Z.of_uint ds)
      | _, _ => None
      end
  | None => None
  end.

(** ** Teardown, as the specification orders it

    The calls a teardown in state [s] is to make, in order: stop the encoder
    when a recording is active, then cancel the tick, then stop the tracks of
    the stream. *)
Definition teardownCalls (s : State) : list Call :=
  match currentRecorder s with
  | Some (id, r) =>
      if notInactive (rec_state r)
      then CallRecorderStop id ::
           match timerIntervalRef s with
           | Some handle => [CallClearInterval handle]
           | None => []
           end
      else []
  | None => []
  end
  ++ match mediaStreamRef s with
     | Some stream => map CallTrackStop (stream_tracks stream)
     | None => []
     end.

(** ** Traces *)

(** The data of the [dataavailable] events of a trace, in order. *)
Definition delivered (tr : list Event) : list Blob :=
  flat_map (fun e => match e with
                     | EvDataAvailable _ data => [data]
                     | _ => []
                     end) tr.

(** [data.size > 0], the test of [ondataavailable]. *)
Definition nonEmpty (data : Blob) : bool := 0 <? blob_size data.

(** The sizes of the blobs, added up. *)
Definition totalSize (l : list Blob) : Z :=
  fold_right (fun b n => blob_size b + n) 0 l.

(** A call of [startRecording]. *)
Definition isStart (e : Event) : bool :=
  match e with EvStartRecording _ _ _ => true | _ => false end.

(** A [stop] event: the encoder's finalize callback runs. *)
Definition isStopEvent (e : Event) : bool :=
  match e with EvStop _ => true | _ => false end.

(** A request to stop: the click on Stop Recording. *)
Definition isStopRequest (e : Event) : bool :=
  match e with EvStopRecording => true | _ => false end.

(** Some recorder's [stop] event is queued and has not fired. *)
Definition stopsQueued (s : State) : bool :=
  existsb rec_stopQueued (recorders s).

(** The type is one of the two [startRecording] chooses from; both are WebM. *)
Definition isWebm (type : string) : bool :=
  String.eqb type "video/webm; codecs=vp9" || String.eqb type "video/webm".

(** How one event can change the list of recorders. *)
Inductive RecordersChange (e : Event) (rs : list MediaRecorder)
  : list MediaRecorder -> Prop :=
| rc_same : RecordersChange e rs rs
| rc_stopped (id : nat) :
    isStopRequest e = true -> RecordersChange e rs (updateAt id stopped rs)
| rc_dequeued (id : nat) (r : MediaRecorder) :
    e = EvStop id -> nth_error rs id = Some r -> rec_stopQueued r = true ->
    RecordersChange e rs (updateAt id dequeued rs)
| rc_created (r : MediaRecorder) :
    isStart e = true -> rec_stopQueued r = false ->
    isWebm (rec_mimeType r) = true ->
    RecordersChange e rs (rs ++ [r]).

(** Scenario A of the specification, from the start of the recording to the
    stop request: five fragments, a tick in between, and the empty fragment
    the encoder flushes after the stop. *)
Definition scenarioA : list Event :=
  [EvDataAvailable 0 (fragment 10);
   EvDataAvailable 0 (fragment 0);
   EvTick 1 2500;
   EvDataAvailable 0 (fragment 20);
   EvDataAvailable 0 (fragment 5);
   EvDataAvailable 0 (fragment 0);
   EvStopRecording;
   EvDataAvailable 0 (fragment 0)].

(** Every recorder, and the recorded blob if there is one, has one of the
    two WebM types. *)
Definition webmOnly (s : State) : bool :=
  forallb (fun r => isWebm (rec_mimeType r)) (recorders s)
  && match recordedBlob s with
     | Some blob => isWebm (blob_type blob)
     | None => true
     end.

(** A recording that overlaps the end of the one before: the second start
    comes after the stop request of the first and before its [stop] event. *)
Definition overlap : list Event :=
  [EvStartCamera (Resolved frontCamera);
   EvStartRecording true EncoderOk 1000;
   EvDataAvailable 0 (fragment 10);
   EvStopRecording;
   EvStartRecording true EncoderOk 3000;
   EvDataAvailable 0 (fragment 4);
   EvStop 0].

(** The intervals that run when only the held one does. *)
Definition heldInterval (s : State) : list nat :=
  match timerIntervalRef s with
  | Some handle => [handle]
  | None => []
  end.

(** The hundredths of a mebibyte the status line shows for [size] bytes. *)
Definition shownHundredths (size : Z) : Z := (200 * size + 1048576) / 2097152.

(** The way to the recording of the scenario. *)
Definition toFiveFragments : list Event :=
  [EvStartCamera (Resolved frontCamera);
   EvStartRecording true EncoderOk 1000;
   EvDataAvailable 0 (fragment 10);
   EvDataAvailable 0 (fragment 0);
   EvDataAvailable 0 (fragment 20);
   EvDataAvailable 0 (fragment 5);
   EvDataAvailable 0 (fragment 0)].

(** The held recorder is the only one that may be active. *)
Definition soleEncoder (s : State) : Prop :=
  forall id r,
    nth_error (recorders s) id = Some r ->
    notInactive (rec_state r) = true ->
    mediaRecorderRef s = Some id.

(** ** Recordings that overlap, and recordings that do not *)

(** The fragments recorder [id] delivered in a trace, in order. *)
Definition deliveredBy (id : nat) (tr : list Event) : list Blob :=
  flat_map (fun e => match e with
                     | EvDataAvailable id' data =>
                         if Nat.eqb id' id then [data] else []
                     | _ => []
                     end) tr.

(** The recorder has finished: it is inactive and its [stop] event has
    fired, or it never started. *)
Definition finished (r : MediaRecorder) : bool :=
  negb (notInactive (rec_state r)) && negb (rec_stopQueued r).

(** Every recorder created so far has finished. *)
Definition allFinished (s : State) : bool := forallb finished (recorders s).

(** Clicks on rendered buttons that end in the Recorded state with the [stop]
    event of the second recording still queued: the second recording was
    started before the [stop] event of the first. *)
Definition overlapRecorded : list Event :=
  [EvStartCamera (Resolved frontCamera);
   EvStartRecording true EncoderOk 1000;
   EvStopRecording;
   EvStartRecording true EncoderOk 2000;
   EvStop 0;
   EvStopRecording].

(** The same clicks up to the second recording, with the [stop] event of the
    first fired while it runs. *)
Definition overlapRecording : list Event :=
  [EvStartCamera (Resolved frontCamera);
   EvStartRecording true EncoderOk 1000;
   EvStopRecording;
   EvStartRecording true EncoderOk 2000;
   EvStop 0].

(** * Properties *)

(** ** Lists and records *)

Lemma nth_error_updateAt_same {A} (f : A -> A) (l : list A) (i : nat) :
  nth_error (updateAt i f l) i = option_map f (nth_error l i).
Proof.
  revert i; induction l as [|x l IH]; intros [|i]; simpl; auto.
Qed.

Lemma nth_error_updateAt_other {A} (f : A -> A) (l : list A) (i j : nat) :
  i <> j -> nth_error (updateAt i f l) j = nth_error l j.
Proof.
  revert i j; induction l as [|x l IH]; intros [|i] [|j] Hij; simpl;
    try congruence; auto.
Qed.

Lemma nth_error_updateAt {A} (f : A -> A) (l : list A) (i j : nat) :
  nth_error (updateAt i f l) j =
  if Nat.eqb i j then option_map f (nth_error l j) else nth_error l j.
Proof.
  destruct (Nat.eqb_spec i j) as [->|Hij].
  - apply nth_error_updateAt_same.
  - apply nth_error_updateAt_other; assumption.
Qed.

Lemma length_updateAt {A} (f : A -> A) (l : list A) (i : nat) :
  length (updateAt i f l) = length l.
Proof.
  revert i; induction l as [|x l IH]; intros [|i]; simpl; auto.
Qed.

Lemma nth_error_snoc_old {A} (l : list A) (x y : A) (i : nat) :
  nth_error l i = Some y -> nth_error (l ++ [x]) i = Some y.
Proof.
  intros H. rewrite nth_error_app1; auto.
  apply nth_error_Some. congruence.
Qed.

Lemma nth_error_snoc_new {A} (l : list A) (x : A) :
  nth_error (l ++ [x]) (length l) = Some x.
Proof.
  rewrite nth_error_app2, Nat.sub_diag by lia. reflexivity.
Qed.

Lemma nth_error_snoc_cases {A} (l : list A) (x r : A) (id : nat) :
  nth_error (l ++ [x]) id = Some r ->
  nth_error l id = Some r \/ (id = length l /\ r = x).
Proof.
  intros H. destruct (Nat.lt_ge_cases id (length l)) as [Hlt|Hge].
  - left. rewrite nth_error_app1 in H by exact Hlt. exact H.
  - right. rewrite nth_error_app2 in H by exact Hge.
    destruct (id - length l)%nat as [|k] eqn:E; simpl in H.
    + split; [lia | congruence].
    + destruct k; discriminate.
Qed.

(** [track.stop()] on each track only adds to the ended tracks and to the
    calls. *)
Lemma stopTracks_eq (tracks : list nat) (s : State) :
  stopTracks tracks s =
  set_calls (calls s ++ map CallTrackStop tracks)
    (set_endedTracks (endedTracks s ++ tracks) s).
Proof.
  revert s; induction tracks as [|t tracks IH]; intros s.
  - destruct s; unfold set_calls, set_endedTracks; simpl.
    rewrite !app_nil_r. reflexivity.
  - simpl. rewrite IH. destruct s; unfold set_calls, set_endedTracks; simpl.
    rewrite <- !app_assoc. reflexivity.
Qed.

(** Unfolds the handlers down to the field updates. *)
Ltac unfold_handlers :=
  unfold cleanup, Older.cleanup, Older.stopRecording, stopRecording, stopCamera,
    stopTimer, startCamera, startRecording, startTimer, timerCallback,
    ondataavailable, onstop, downloadVideo, dequeueStop, recorderStart,
    newMediaRecorder, recorderStop, setInterval, clearInterval,
    recorderActive, currentRecorder;
  cbv zeta.

(** Splits on the first [match] or [if] scrutinee of the goal. *)
Ltac case_scrutinee :=
  match goal with
  | |- context [match ?x with _ => _ end] =>
      lazymatch x with
      | context [match _ with _ => _ end] => fail
      | _ => destruct x eqn:?
      end
  end.


(** Splits a conjunction into its parts. *)
Ltac split_and := repeat match goal with |- _ /\ _ => split end.

(** ** Stopping with nothing to stop *)

(** C3: when no recording session is active (the held recorder is absent or
    inactive), [stopRecording] changes nothing at all: flags, refs, buffer,
    recorded blob, browser objects and calls are as before.  The older
    variant, which tests the flag, agrees wherever the flags are coherent. *)
Theorem stopRecording_inactive_noop (s : State) :
  recorderActive s = false ->
  stopRecording s = s /\ (wf s = true -> Older.stopRecording s = s).
Proof.
  intros Hinactive. split.
  - unfold recorderActive in Hinactive. unfold stopRecording.
    destruct (currentRecorder s) as [[id r]|]; [|reflexivity].
    rewrite Hinactive. reflexivity.
  - unfold wf. rewrite Hinactive. intros Hwf.
    apply andb_true_iff in Hwf as [Hwf _].
    apply andb_true_iff in Hwf as [Hwf _].
    apply andb_true_iff in Hwf as [_ Hflag].
    apply eqb_prop in Hflag.
    unfold Older.stopRecording. rewrite Hflag.
    destruct (mediaRecorderRef s); reflexivity.
Qed.

Lemma stopRecording_inactive_noop_witness :
  recorderActive recordedNow = false /\
  stopRecording recordedNow = recordedNow /\
  Older.stopRecording recordedNow = recordedNow.
Proof.
  split; [reflexivity|].
  destruct (stopRecording_inactive_noop recordedNow eq_refl) as [H1 H2].
  split; [exact H1 | apply H2; reflexivity].
Defined.

(** ** A camera the browser refuses *)

(** C4: when [getUserMedia] rejects with an error carrying the platform's
    message, [startCamera] acquires nothing: the stream ref and the camera
    flag are as before, so the session state is the one before (idle when it
    was idle), and the error shown is "Camera Error: " followed by that
    message.  Only the error text and the status line change. *)
Theorem startCamera_rejected (s : State) (message : string) :
  let s' := startCamera (Rejected (ThrownError message)) s in
  mediaStreamRef s' = mediaStreamRef s
  /\ isCameraActive s' = isCameraActive s
  /\ sessionState s' = sessionState s
  /\ cameraError s' = ("Camera Error: " ++ message)%string
  /\ s' = set_status "Failed to access camera"
            (set_cameraError ("Camera Error: " ++ message)%string s)
  /\ sessionState (startCamera (Rejected (ThrownError message)) initialState) = Idle.
Proof.
  destruct s; cbv zeta; repeat split.
Qed.

(** Scenario B of the specification. *)
Example permission_denied :
  let s := startCamera (Rejected (ThrownError "Permission denied")) initialState in
  sessionState s = Idle
  /\ cameraError s = "Camera Error: Permission denied"
  /\ mediaStreamRef s = None.
Proof. repeat split. Qed.

(** A rejection that is no [Error] object shows the fixed text. *)
Example rejected_without_message :
  cameraError (startCamera (Rejected ThrownOther) initialState)
  = "Camera Error: Unknown error".
Proof. reflexivity. Qed.

(** ** Stopping the timer *)

Lemma existsb_filter_out (handle : nat) (l : list nat) :
  existsb (Nat.eqb handle) (filter (fun h => negb (Nat.eqb h handle)) l) = false.
Proof.
  induction l as [|h l IH]; simpl; [reflexivity|].
  destruct (Nat.eqb_spec h handle) as [->|Hne]; simpl; [exact IH|].
  rewrite IH. destruct (Nat.eqb_spec handle h); [congruence|reflexivity].
Qed.

(** C6, as the code has it: [stopTimer] cancels the interval it holds and
    forgets the handle, after which that interval cannot tick; a second call
    changes nothing.  The stored start instant is left as it was: nothing in
    the component ever clears it. *)
Theorem stopTimer_cancels_tick (s : State) :
  let s' := stopTimer s in
  timerIntervalRef s' = None
  /\ match timerIntervalRef s with
     | Some handle =>
         existsb (Nat.eqb handle) (intervals s') = false
         /\ (forall now, step (EvTick handle now) s' = None)
     | None => s' = s
     end
  /\ recordingStartTimeRef s' = recordingStartTimeRef s
  /\ stopTimer s' = s'.
Proof.
  destruct s as [v ms mr ch [handle|] st ca re bl stt ce ti rs iv nh et cs];
    cbv zeta; unfold stopTimer, clearInterval; simpl.
  - pose proof (existsb_filter_out handle iv) as Hout.
    repeat split; auto.
    intros now. simpl. rewrite Hout. reflexivity.
  - repeat split.
Qed.

(** C6, the part the code does not do: after a recording that started at
    instant 1000, [stopTimer] (and so [stopRecording]) leaves the start
    instant in place. *)
Lemma stopTimer_keeps_start_instant :
  recordingStartTimeRef (stopTimer fiveFragments) = Some 1000
  /\ recordingStartTimeRef (stopTimer fiveFragments) <> None
  /\ recordingStartTimeRef stoppedNow <> None.
Proof.
  repeat split; discriminate.
Qed.

(** ** Starting while a recording runs *)

(** C7, as the code has it: the Start Recording button is rendered only while
    nothing records, and that is the only gate.  [startRecording] itself tests
    the camera alone: called while a recording runs, with an encoder the
    browser accepts, it raises nothing, creates a second recorder and holds
    that one, empties the buffer the first recorder still writes to, and
    leaves the first recorder recording. *)
Theorem startRecording_while_recording (vp9 : bool) (now : Z) (s : State) :
  wf s = true ->
  isRecording s = true ->
  let s' := startRecording vp9 EncoderOk now s in
  offersStartRecording s = false
  /\ length (recorders s') = S (length (recorders s))
  /\ mediaRecorderRef s' = Some (length (recorders s))
  /\ recorderActive s' = true
  /\ recordedChunksRef s' = []
  /\ recordedBlob s' = None
  /\ isRecording s' = true
  /\ status s' = "RECORDING..."
  /\ (exists id r, currentRecorder s = Some (id, r)
                   /\ nth_error (recorders s') id = Some r
                   /\ notInactive (rec_state r) = true
                   /\ mediaRecorderRef s' <> Some id).
Proof.
  intros Hwf Hrec. unfold wf in Hwf. rewrite Hrec in Hwf.
  apply andb_true_iff in Hwf as [Hwf Hcam].
  apply andb_true_iff in Hwf as [Hwf _].
  apply andb_true_iff in Hwf as [Hstream Hactive].
  simpl in Hcam. rewrite Hcam in Hstream.
  apply eqb_prop in Hstream. apply eqb_prop in Hactive.
  unfold recorderActive in Hactive.
  destruct (currentRecorder s) as [[id r]|] eqn:Hcur; [|discriminate].
  assert (Hnth : nth_error (recorders s) id = Some r).
  { unfold currentRecorder in Hcur.
    destruct (mediaRecorderRef s); [|discriminate].
    destruct (nth_error (recorders s) n) eqn:E; inversion Hcur; subst. exact E. }
  assert (Hlt : (id < length (recorders s))%nat)
    by (apply nth_error_Some; congruence).
  destruct s as [v [stream|] mr ch tr st ca re bl stt ce ti rs iv nh et cs];
    simpl in *; [|discriminate].
  subst ca re. cbv zeta.
  unfold offersStartRecording, recorderActive, currentRecorder, startRecording,
    startTimer, setInterval, recorderStart, newMediaRecorder; simpl.
  rewrite length_updateAt, length_app, nth_error_updateAt_same,
    nth_error_snoc_new; simpl.
  repeat split; try lia.
  exists id, r. repeat split; auto.
  - rewrite nth_error_updateAt_other by lia.
    apply nth_error_snoc_old. exact Hnth.
  - intros [= Heq]. lia.
Qed.

Lemma startRecording_while_recording_witness :
  wf fiveFragments = true /\ isRecording fiveFragments = true
  /\ length (recorders (startRecording true EncoderOk 5000 fiveFragments)) = 2%nat
  /\ recordedChunksRef (startRecording true EncoderOk 5000 fiveFragments) = [].
Proof.
  split; [reflexivity|]. split; [reflexivity|].
  pose proof (startRecording_while_recording true 5000 fiveFragments
                eq_refl eq_refl) as H.
  cbv zeta in H. destruct H as (_ & Hlen & _ & _ & Hbuf & _).
  split; [exact Hlen | exact Hbuf].
Defined.

(** C7, as stated, fails: starting again while the recording of the scenario
    runs creates a second recorder and throws the three fragments collected
    so far out of the buffer. *)
Lemma startRecording_twice_creates_second_encoder :
  let s' := startRecording true EncoderOk 5000 fiveFragments in
  isRecording fiveFragments = true
  /\ recorders s' <> recorders fiveFragments
  /\ length (recorders s') = 2%nat
  /\ mediaRecorderRef fiveFragments = Some 0%nat
  /\ mediaRecorderRef s' = Some 1%nat
  /\ length (recordedChunksRef fiveFragments) = 3%nat
  /\ recordedChunksRef s' = []
  /\ status s' = "RECORDING...".
Proof.
  cbv zeta. repeat split. discriminate.
Qed.

(** ** Downloading *)

Lemma replaceColonDot_length (s : string) :
  String.length (replaceColonDot s) = String.length s.
Proof.
  induction s as [|c s IH]; simpl; congruence.
Qed.

(** No colon and no dot is left. *)
Lemma replaceColonDot_clean (s : string) :
  forallb (fun c => negb (Ascii.eqb c ":" || Ascii.eqb c "."))
    (list_ascii_of_string (replaceColonDot s)) = true.
Proof.
  induction s as [|c s IH]; simpl; [reflexivity|].
  rewrite IH, andb_true_r.
  destruct (Ascii.eqb c ":" || Ascii.eqb c ".") eqn:E; [reflexivity|].
  rewrite E. reflexivity.
Qed.

(** C8, as the code has it: without a recorded blob [downloadVideo] does
    nothing; with one it hands the browser that blob under the name
    "presentation_", the ISO timestamp with every colon and dot replaced by
    a dash, ".webm" (the extension is fixed).  It changes the status line, and
    nothing else; repeating it yields the same download and the same state. *)
Theorem downloadVideo_reads_artifact (iso : string) (s : State) :
  let (result, s') := downloadVideo iso s in
  set_status (status s) s' = s
  /\ match recordedBlob s with
     | None => result = None /\ s' = s
     | Some blob =>
         result = Some (mkDownload blob
                          ("presentation_" ++ replaceColonDot iso ++ ".webm")%string)
         /\ status s' = "Video downloaded successfully!"
     end
  /\ downloadVideo iso s' = (result, s')
  /\ String.length (replaceColonDot iso) = String.length iso
  /\ forallb (fun c => negb (Ascii.eqb c ":" || Ascii.eqb c "."))
       (list_ascii_of_string (replaceColonDot iso)) = true.
Proof.
  pose proof (replaceColonDot_length iso) as Hlen.
  pose proof (replaceColonDot_clean iso) as Hclean.
  destruct s as [v ms mr ch tr st ca re [blob|] stt ce ti rs iv nh et cs];
    unfold downloadVideo; cbn [recordedBlob status set_status];
    split_and; auto.
Qed.

(** C8, as stated, fails: the download replaces the status line, which is
    part of what the component shows. *)
Lemma downloadVideo_changes_status :
  let s' := snd (downloadVideo "2024-01-15T10:30:45.123Z" recordedNow) in
  hasArtifact recordedNow = true
  /\ status recordedNow = "Recording complete! Size: 0.00 MB"
  /\ status s' = "Video downloaded successfully!"
  /\ s' <> recordedNow.
Proof.
  cbv zeta. repeat split. discriminate.
Qed.

(** The name of the scenario's download. *)
Example download_name :
  option_map download (fst (downloadVideo "2024-01-15T10:30:45.123Z" recordedNow))
  = Some "presentation_2024-01-15T10-30-45-123Z.webm".
Proof. reflexivity. Qed.

(** ** The elapsed-time label *)

(** [String(n)] of a number that is not negative is its digits. *)
Lemma String_digits (n : Z) :
  0 <= n ->
  exists u, String_ n = NilEmpty.string_of_uint u /\ Z.of_uint u = n.
Proof.
  intros Hn. destruct n as [|p|p]; [| |lia].
  - exists (Decimal.D0 Decimal.Nil). split; reflexivity.
  - exists (Pos.to_uint p). split.
    + unfold String_; simpl.
      pose proof (DecimalPos.Unsigned.to_uint_nonnil p) as Hnil.
      destruct (Pos.to_uint p); [congruence | reflexivity ..].
    + unfold Z.of_uint. rewrite DecimalPos.Unsigned.of_to. reflexivity.
Qed.

(** Padding digits with zeros gives digits of the same number. *)
Lemma padStart_digits (n : Z) :
  0 <= n ->
  exists u, padStart 2 "0" (String_ n) = NilEmpty.string_of_uint u
            /\ Z.of_uint u = n.
Proof.
  intros Hn. destruct (String_digits n Hn) as (u & Hs & Hu).
  unfold padStart. rewrite Hs.
  destruct (String.length (NilEmpty.string_of_uint u)) as [|[|k]]; simpl.
  - exists (Decimal.D0 (Decimal.D0 u)). split; [reflexivity | exact Hu].
  - exists (Decimal.D0 u). split; [reflexivity | exact Hu].
  - exists u. split; [reflexivity | exact Hu].
Qed.

Lemma splitColon_digits (u : Decimal.uint) (rest : string) :
  splitColon (NilEmpty.string_of_uint u ++ String ":" rest)
  = Some (NilEmpty.string_of_uint u, rest).
Proof.
  induction u; simpl; rewrite ?IHu; reflexivity.
Qed.

Lemma length_cycle (k : nat) (cur pad : string) :
  pad <> EmptyString -> String.length (cycle k cur pad) = k.
Proof.
  intros Hpad. revert cur.
  induction k as [|k IH]; intros cur; simpl; [reflexivity|].
  destruct cur as [|c cur]; [destruct pad as [|c pad]; [congruence|]|];
    simpl; rewrite IH; reflexivity.
Qed.

Lemma length_append (a b : string) :
  String.length (a ++ b) = (String.length a + String.length b)%nat.
Proof.
  induction a as [|c a IH]; simpl; congruence.
Qed.

(** [padStart] fills up to the target length, and never cuts. *)
Lemma padStart_length (target : nat) (pad s : string) :
  pad <> EmptyString ->
  String.length (padStart target pad s) = Nat.max target (String.length s).
Proof.
  intros Hpad. unfold padStart.
  rewrite length_append, length_cycle by assumption. lia.
Qed.

(** The seconds of a label take two characters. *)
Lemma seconds_two_digits (n : Z) :
  0 <= n < 60 -> String.length (padStart 2 "0" (String_ n)) = 2%nat.
Proof.
  intros Hn.
  assert (Hall : forallb
            (fun k => Nat.eqb (String.length (padStart 2 "0" (String_ (Z.of_nat k)))) 2)
            (seq 0 60) = true) by (vm_compute; reflexivity).
  rewrite forallb_forall in Hall.
  specialize (Hall (Z.to_nat n)).
  rewrite Z2Nat.id in Hall by lia.
  apply Nat.eqb_eq, Hall, in_seq. lia.
Qed.

(** What a tick publishes, for a clock that did not go back. *)
Lemma timerCallback_label (s : State) (start now : Z) :
  recordingStartTimeRef s = Some start ->
  start <= now ->
  let elapsed := (now - start) / 1000 in
  timer (timerCallback now s)
  = (padStart 2 "0" (String_ (elapsed / 60)) ++ ":"
     ++ padStart 2 "0" (String_ (elapsed mod 60)))%string
  /\ labelSeconds (timer (timerCallback now s)) = Some elapsed
  /\ recordingStartTimeRef (timerCallback now s) = Some start.
Proof.
  intros Hstart Hle elapsed.
  assert (He : 0 <= elapsed) by (apply Z.div_pos; lia).
  assert (Hm : 0 <= elapsed / 60) by (apply Z.div_pos; lia).
  assert (Hs : 0 <= elapsed mod 60 < 60) by (apply Z.mod_pos_bound; lia).
  assert (Hlabel : timer (timerCallback now s)
    = (padStart 2 "0" (String_ (elapsed / 60)) ++ ":"
       ++ padStart 2 "0" (String_ (elapsed mod 60)))%string).
  { unfold timerCallback. rewrite Hstart. fold elapsed.
    rewrite Z.rem_mod_nonneg by lia. destruct s; reflexivity. }
  split; [exact Hlabel|]. split.
  - rewrite Hlabel.
    destruct (padStart_digits _ Hm) as (um & -> & Hum).
    destruct (padStart_digits (elapsed mod 60)) as (us & -> & Hus); [lia|].
    unfold labelSeconds. simpl String.append.
    rewrite splitColon_digits, !NilEmpty.usu, Hum, Hus.
    f_equal. pose proof (Z.div_mod elapsed 60). lia.
  - unfold timerCallback. rewrite Hstart. destruct s; simpl in *. exact Hstart.
Qed.

(** C5, as the code has it: [startTimer] stores the start instant and leaves
    the label alone, so the label is ["00:00"] after the first start of a
    component and the last label of the previous recording after a later one,
    until the first tick.  Each tick, with a clock that did not go back,
    publishes the whole seconds since the start as minutes, a colon and
    seconds: the seconds on two digits, the minutes on two digits or more and
    not capped; over later ticks the seconds the label stands for do not
    decrease. *)
Theorem timer_label_after_start (s : State) (now t1 t2 : Z) :
  now <= t1 -> t1 <= t2 ->
  let s0 := startTimer now s in
  let s1 := timerCallback t1 s0 in
  let s2 := timerCallback t2 s1 in
  let e1 := (t1 - now) / 1000 in
  let e2 := (t2 - now) / 1000 in
  timer s0 = timer s
  /\ recordingStartTimeRef s0 = Some now
  /\ timer (startTimer now initialState) = "00:00"
  /\ timer s1 = (padStart 2 "0" (String_ (e1 / 60)) ++ ":"
                 ++ padStart 2 "0" (String_ (e1 mod 60)))%string
  /\ (2 <= String.length (padStart 2 "0" (String_ (e1 / 60))))%nat
  /\ String.length (padStart 2 "0" (String_ (e1 mod 60))) = 2%nat
  /\ labelSeconds (timer s1) = Some e1
  /\ labelSeconds (timer s2) = Some e2
  /\ e1 <= e2.
Proof.
  intros H1 H2 s0 s1 s2 e1 e2.
  assert (Hs0 : recordingStartTimeRef s0 = Some now) by (destruct s; reflexivity).
  destruct (timerCallback_label s0 now t1 Hs0 H1) as (Hl1 & Hd1 & Hk1).
  fold s1 in Hl1, Hd1, Hk1.
  destruct (timerCallback_label s1 now t2 Hk1) as (_ & Hd2 & _); [lia|].
  fold s2 in Hd2.
  split; [destruct s; reflexivity|].
  split; [exact Hs0|].
  split; [reflexivity|].
  split; [exact Hl1|].
  split; [rewrite padStart_length by discriminate; lia|].
  split; [apply seconds_two_digits; apply Z.mod_pos_bound; lia|].
  split; [exact Hd1|].
  split; [exact Hd2|].
  apply Z.div_le_mono; lia.
Qed.

Lemma timer_label_after_start_witness :
  timer (timerCallback 4206500 (startTimer 1000 cameraReady)) = "70:05"
  /\ labelSeconds "70:05" = Some 4205.
Proof.
  pose proof (timer_label_after_start cameraReady 1000 4206500 4206500) as H.
  cbv zeta in H.
  destruct H as (_ & _ & _ & Hl & _ & _ & Hd & _); [lia | lia |].
  split; [exact Hl | reflexivity].
Defined.

(** C5, as stated, fails: when a second recording starts after one that ran
    for seven seconds, the label right after the start is still ["00:07"]. *)
Lemma label_carried_over :
  option_map isRecording (run secondRecording initialState) = Some true
  /\ option_map timer (run secondRecording initialState) = Some "00:07"
  /\ option_map timer (run secondRecording initialState) <> Some "00:00".
Proof.
  repeat split. discriminate.
Qed.

(** Seventy-five minutes show as ["75:00"], and a clock set back during a
    recording shows through. *)
Example label_examples :
  timer (timerCallback 4500000 (startTimer 0 cameraReady)) = "75:00"
  /\ timer (timerCallback 999 (startTimer 0 cameraReady)) = "00:00"
  /\ timer (timerCallback 0 (startTimer 1 cameraReady)) = "-1:-1".
Proof. repeat split. Qed.

(** ** The invariant holds in every state the component reaches *)

Lemma wf_iff (s : State) :
  wf s = true <->
  isCameraActive s = isSome (mediaStreamRef s)
  /\ isRecording s = recorderActive s
  /\ isSome (timerIntervalRef s) = isRecording s
  /\ (isRecording s = true -> isCameraActive s = true).
Proof.
  unfold wf. rewrite !andb_true_iff, !eqb_true_iff.
  destruct (isRecording s), (isCameraActive s); simpl; intuition congruence.
Qed.

(** Either nothing is active and [stopRecording] does nothing, or the held
    recorder is stopped, the flag dropped and the timer stopped. *)
Lemma stopRecording_cases (s : State) :
  (recorderActive s = false /\ stopRecording s = s)
  \/ (exists id r,
        mediaRecorderRef s = Some id
        /\ nth_error (recorders s) id = Some r
        /\ notInactive (rec_state r) = true
        /\ recorderActive s = true
        /\ stopRecording s = stopTimer (set_isRecording false (recorderStop id s))).
Proof.
  unfold stopRecording, recorderActive, currentRecorder.
  destruct (mediaRecorderRef s) as [id|] eqn:Href; [|left; split; reflexivity].
  destruct (nth_error (recorders s) id) as [r|] eqn:Hnth;
    [|left; split; reflexivity].
  destruct (notInactive (rec_state r)) eqn:Hact.
  - right. exists id, r. repeat split; assumption.
  - left. split; reflexivity.
Qed.

(** What an effective [stopRecording] leaves. *)
Lemma stop_active_fields (s : State) (id : nat) (r : MediaRecorder) :
  mediaRecorderRef s = Some id ->
  nth_error (recorders s) id = Some r ->
  notInactive (rec_state r) = true ->
  let s' := stopTimer (set_isRecording false (recorderStop id s)) in
  isRecording s' = false
  /\ timerIntervalRef s' = None
  /\ recorderActive s' = false
  /\ nth_error (recorders s') id
     = Some (mkRecorder (rec_stream r) (rec_mimeType r) inactive true)
  /\ isCameraActive s' = isCameraActive s
  /\ mediaStreamRef s' = mediaStreamRef s
  /\ videoRef s' = videoRef s
  /\ recordedBlob s' = recordedBlob s
  /\ recordedChunksRef s' = recordedChunksRef s
  /\ endedTracks s' = endedTracks s
  /\ calls s' = calls s ++ CallRecorderStop id ::
                 match timerIntervalRef s with
                 | Some handle => [CallClearInterval handle]
                 | None => []
                 end.
Proof.
  intros Href Hnth Hact.
  destruct s as [v ms mr ch [handle|] st ca re bl stt ce ti rs iv nh et cs];
    simpl in *; subst mr; cbv zeta;
    unfold stopTimer, clearInterval, recorderStop, recorderActive,
      currentRecorder; simpl;
    rewrite nth_error_updateAt_same, Hnth; unfold stopped; simpl;
    rewrite Hact; simpl; rewrite <- ?app_assoc; repeat split.
Qed.

(** An effective stop request cancels the held interval and stops the held
    recorder. *)
Lemma stop_active_timer (s : State) (id : nat) :
  let s' := stopTimer (set_isRecording false (recorderStop id s)) in
  intervals s'
  = match timerIntervalRef s with
    | Some handle => filter (fun h => negb (Nat.eqb h handle)) (intervals s)
    | None => intervals s
    end
  /\ timerIntervalRef s' = None
  /\ recorders s' = updateAt id stopped (recorders s)
  /\ mediaRecorderRef s' = mediaRecorderRef s.
Proof.
  destruct s as [v ms mr ch [handle|] st ca re bl stt ce ti rs iv nh et cs];
    cbv zeta; split_and; reflexivity.
Qed.

Lemma stopRecording_wf (s : State) :
  wf s = true ->
  wf (stopRecording s) = true /\ isRecording (stopRecording s) = false.
Proof.
  intros Hwf.
  destruct (stopRecording_cases s) as [[Hin ->]|(id & r & Href & Hnth & Hact & _ & ->)].
  - split; [exact Hwf|]. apply wf_iff in Hwf. destruct Hwf as (_ & H & _). congruence.
  - destruct (stop_active_fields s id r Href Hnth Hact)
      as (Hrec & Htim & Hra & _ & Hcam & Hms & _).
    split; [|exact Hrec].
    apply wf_iff in Hwf. destruct Hwf as (H1 & _).
    apply wf_iff. rewrite Hrec, Htim, Hra, Hcam, Hms.
    repeat split; auto. discriminate.
Qed.

Lemma stopCamera_fields (s : State) :
  let s' := stopCamera s in
  mediaStreamRef s' = None
  /\ isRecording s' = isRecording s
  /\ timerIntervalRef s' = timerIntervalRef s
  /\ recorderActive s' = recorderActive s
  /\ recordedBlob s' = recordedBlob s
  /\ (isCameraActive s = isSome (mediaStreamRef s) -> isCameraActive s' = false)
  /\ calls s' = calls s ++ match mediaStreamRef s with
                           | Some stream => map CallTrackStop (stream_tracks stream)
                           | None => []
                           end
  /\ endedTracks s' = endedTracks s ++ match mediaStreamRef s with
                                       | Some stream => stream_tracks stream
                                       | None => []
                                       end
  /\ stopCamera s' = s'.
Proof.
  destruct s as [[v|] [stream|] mr ch tr st ca re bl stt ce ti rs iv nh et cs];
    cbv zeta; unfold stopCamera; simpl; rewrite ?stopTracks_eq; simpl;
    rewrite ?app_nil_r; repeat split; auto.
Qed.

Lemma cleanup_wf (s : State) : wf s = true -> wf (cleanup s) = true.
Proof.
  intros Hwf. unfold cleanup.
  destruct (stopRecording_wf s Hwf) as [Hwf' Hrec].
  destruct (stopCamera_fields (stopRecording s))
    as (Hms & Hr & Ht & Ha & _ & Hc & _).
  apply wf_iff in Hwf'. destruct Hwf' as (H1 & H2 & H3 & H4).
  apply wf_iff. rewrite Hms, Hr, Ht, Ha, (Hc H1). simpl.
  repeat split; auto. congruence.
Qed.

(** ** Teardown *)


(** [wf] reads five things only. *)
Lemma wf_ext (s s' : State) :
  wf s = true ->
  isCameraActive s' = isCameraActive s ->
  mediaStreamRef s' = mediaStreamRef s ->
  isRecording s' = isRecording s ->
  recorderActive s' = recorderActive s ->
  timerIntervalRef s' = timerIntervalRef s ->
  wf s' = true.
Proof.
  unfold wf. intros Hwf -> -> -> -> ->. exact Hwf.
Qed.

(** Closes the goals of [wf_ext] for a handler that leaves the five alone. *)
Ltac same_flags s := apply (wf_ext s); [assumption | destruct s; reflexivity ..].

Lemma startCamera_wf (result : GetUserMedia) (s : State) :
  wf s = true -> wf (startCamera result s) = true.
Proof.
  intros Hwf. destruct result as [stream|error].
  - apply wf_iff in Hwf. destruct Hwf as (_ & H2 & H3 & _).
    apply wf_iff.
    destruct s as [[v|] ms mr ch tr st ca re bl stt ce ti rs iv nh et cs];
      unfold recorderActive, currentRecorder in *; simpl in *; auto.
  - same_flags s.
Qed.

(** A recorder that did not start does not change which recorder is active. *)
Lemma recorderActive_snoc_inactive (s : State) (stream : MediaStream)
    (mimeType : string) :
  recorderActive (snd (newMediaRecorder stream mimeType s)) = recorderActive s.
Proof.
  unfold recorderActive, currentRecorder, newMediaRecorder.
  destruct s as [v ms [id|] ch tr st ca re bl stt ce ti rs iv nh et cs];
    simpl; [|reflexivity].
  destruct (nth_error rs id) as [r|] eqn:Hnth.
  - rewrite (nth_error_snoc_old _ _ _ _ Hnth). reflexivity.
  - apply nth_error_None in Hnth.
    destruct (Nat.eq_dec id (length rs)) as [->|Hne].
    + rewrite nth_error_snoc_new. reflexivity.
    + assert (Hnone : nth_error (rs ++ [mkRecorder stream mimeType inactive false]) id = None).
      { apply nth_error_None. rewrite length_app. simpl. lia. }
      rewrite Hnone. reflexivity.
Qed.

Lemma startRecording_wf (vp9 : bool) (outcome : EncoderOutcome) (now : Z)
    (s : State) :
  wf s = true -> wf (startRecording vp9 outcome now s) = true.
Proof.
  intros Hwf. unfold startRecording.
  destruct (isCameraActive s) eqn:Hcam; [|same_flags s].
  destruct (mediaStreamRef s) as [stream|] eqn:Hms; [|same_flags s].
  destruct outcome as [|error|error].
  - (* the encoder starts *)
    apply wf_iff.
    destruct s as [v ms mr ch tr st ca re bl stt ce ti rs iv nh et cs];
      simpl in *; subst ca ms.
    unfold recorderActive, currentRecorder, startTimer, setInterval,
      recorderStart, newMediaRecorder; simpl.
    rewrite nth_error_updateAt_same, nth_error_snoc_new. simpl. auto.
  - (* the constructor throws *)
    same_flags s.
  - (* [start] throws *)
    apply (wf_ext s); [assumption | try (destruct s; reflexivity) ..].
    transitivity (recorderActive
                    (snd (newMediaRecorder stream
                            (if vp9 then "video/webm; codecs=vp9" else "video/webm")
                            (set_recordedBlob None (set_recordedChunksRef [] s)))));
      [destruct s; reflexivity|].
    rewrite recorderActive_snoc_inactive. destruct s; reflexivity.
Qed.

(** Taking the queued [stop] event changes no recorder's state. *)
Lemma recorderActive_dequeueStop (id : nat) (s : State) :
  recorderActive (dequeueStop id s) = recorderActive s.
Proof.
  unfold recorderActive, currentRecorder, dequeueStop.
  destruct s as [v ms [cur|] ch tr st ca re bl stt ce ti rs iv nh et cs];
    simpl; [|reflexivity].
  rewrite nth_error_updateAt.
  destruct (Nat.eqb id cur); [|reflexivity].
  destruct (nth_error rs cur); reflexivity.
Qed.

(** Every event keeps the flags coherent. *)
Lemma step_wf (e : Event) (s s' : State) :
  wf s = true -> step e s = Some s' -> wf s' = true.
Proof.
  intros Hwf Hstep. destruct e; simpl in Hstep.
  - inversion Hstep; subst. apply startCamera_wf, Hwf.
  - inversion Hstep; subst. apply startRecording_wf, Hwf.
  - inversion Hstep; subst. apply stopRecording_wf, Hwf.
  - inversion Hstep; subst. unfold downloadVideo.
    destruct (recordedBlob s); [same_flags s | exact Hwf].
  - destruct (nth_error (recorders s) id) as [r|]; [|discriminate].
    destruct (notInactive (rec_state r) || rec_stopQueued r); [|discriminate].
    inversion Hstep; subst. unfold ondataavailable.
    destruct (0 <? blob_size data); [same_flags s | exact Hwf].
  - destruct (nth_error (recorders s) id) as [r|]; [|discriminate].
    destruct (rec_stopQueued r); [|discriminate].
    inversion Hstep; subst.
    apply (wf_ext s); [assumption | try (destruct s; reflexivity) ..].
    transitivity (recorderActive (dequeueStop id s));
      [destruct s; reflexivity | apply recorderActive_dequeueStop].
  - destruct (existsb (Nat.eqb handle) (intervals s)); [|discriminate].
    inversion Hstep; subst. unfold timerCallback.
    destruct (recordingStartTimeRef s); [same_flags s | exact Hwf].
Qed.

Lemma run_wf (tr : list Event) (s s' : State) :
  wf s = true -> run tr s = Some s' -> wf s' = true.
Proof.
  revert s; induction tr as [|e tr IH]; intros s Hwf Hrun; simpl in Hrun.
  - inversion Hrun; subst. exact Hwf.
  - destruct (step e s) as [s1|] eqn:Hstep; [|discriminate].
    apply (IH s1); [eapply step_wf; eassumption | exact Hrun].
Qed.

(** The flags of every reachable state are coherent. *)
Lemma reachable_wf (s : State) : reachable s -> wf s = true.
Proof.
  intros [tr Hrun]. apply (run_wf tr initialState s); [reflexivity | exact Hrun].
Qed.


(** ** What one event changes *)

Lemma updateAt_snoc {A} (f : A -> A) (l : list A) (x : A) :
  updateAt (length l) f (l ++ [x]) = l ++ [f x].
Proof.
  induction l as [|y l IH]; simpl; [reflexivity | rewrite IH; reflexivity].
Qed.

(** Proves that a handler leaves a field alone. *)
Ltac field_same s :=
  destruct s; unfold_handlers; cbn;
  repeat (case_scrutinee; rewrite ?stopTracks_eq; cbn); reflexivity.

Lemma stopCamera_keeps (s : State) :
  recorders (stopCamera s) = recorders s
  /\ recordedChunksRef (stopCamera s) = recordedChunksRef s
  /\ mediaRecorderRef (stopCamera s) = mediaRecorderRef s.
Proof.
  split_and; field_same s.
Qed.

Lemma startCamera_keeps (result : GetUserMedia) (s : State) :
  recorders (startCamera result s) = recorders s
  /\ recordedChunksRef (startCamera result s) = recordedChunksRef s
  /\ recordedBlob (startCamera result s) = recordedBlob s
  /\ isRecording (startCamera result s) = isRecording s
  /\ mediaRecorderRef (startCamera result s) = mediaRecorderRef s.
Proof.
  split_and; destruct result; field_same s.
Qed.

Lemma stopRecording_keeps (s : State) :
  recordedChunksRef (stopRecording s) = recordedChunksRef s
  /\ recordedBlob (stopRecording s) = recordedBlob s
  /\ isCameraActive (stopRecording s) = isCameraActive s
  /\ mediaStreamRef (stopRecording s) = mediaStreamRef s
  /\ mediaRecorderRef (stopRecording s) = mediaRecorderRef s
  /\ (recorders (stopRecording s) = recorders s
      \/ exists id, recorders (stopRecording s) = updateAt id stopped (recorders s)).
Proof.
  destruct (stopRecording_cases s) as [[_ ->]|(id & r & Href & Hnth & Hact & _ & ->)].
  - repeat split; auto.
  - destruct (stop_active_fields s id r Href Hnth Hact)
      as (_ & _ & _ & _ & Hcam & Hms & _ & Hbl & Hch & _).
    repeat split; auto.
    + destruct s as [? ? ? ? [?|] ? ? ? ? ? ? ? ? ? ? ? ?]; reflexivity.
    + right. exists id.
      destruct s as [? ? ? ? [?|] ? ? ? ? ? ? ? ? ? ? ? ?]; reflexivity.
Qed.

Lemma timerCallback_keeps (now : Z) (s : State) :
  recorders (timerCallback now s) = recorders s
  /\ recordedChunksRef (timerCallback now s) = recordedChunksRef s
  /\ recordedBlob (timerCallback now s) = recordedBlob s
  /\ isRecording (timerCallback now s) = isRecording s
  /\ isCameraActive (timerCallback now s) = isCameraActive s
  /\ mediaRecorderRef (timerCallback now s) = mediaRecorderRef s.
Proof.
  split_and; field_same s.
Qed.

Lemma downloadVideo_keeps (iso : string) (s : State) :
  recorders (snd (downloadVideo iso s)) = recorders s
  /\ recordedChunksRef (snd (downloadVideo iso s)) = recordedChunksRef s
  /\ recordedBlob (snd (downloadVideo iso s)) = recordedBlob s
  /\ isRecording (snd (downloadVideo iso s)) = isRecording s
  /\ isCameraActive (snd (downloadVideo iso s)) = isCameraActive s
  /\ mediaRecorderRef (snd (downloadVideo iso s)) = mediaRecorderRef s.
Proof.
  split_and; field_same s.
Qed.

Lemma ondataavailable_keeps (data : Blob) (s : State) :
  recorders (ondataavailable data s) = recorders s
  /\ recordedChunksRef (ondataavailable data s)
     = recordedChunksRef s ++ filter nonEmpty [data]
  /\ recordedBlob (ondataavailable data s) = recordedBlob s
  /\ isRecording (ondataavailable data s) = isRecording s
  /\ isCameraActive (ondataavailable data s) = isCameraActive s
  /\ mediaRecorderRef (ondataavailable data s) = mediaRecorderRef s.
Proof.
  unfold ondataavailable, nonEmpty. simpl.
  destruct (0 <? blob_size data); rewrite ?app_nil_r;
    repeat split; destruct s; reflexivity.
Qed.

Lemma onstop_keeps (id : nat) (mimeType : string) (s : State) :
  let s' := onstop mimeType (dequeueStop id s) in
  recorders s' = updateAt id dequeued (recorders s)
  /\ recordedChunksRef s' = recordedChunksRef s
  /\ recordedBlob s' = Some (newBlob (recordedChunksRef s) mimeType)
  /\ isRecording s' = isRecording s
  /\ isCameraActive s' = isCameraActive s
  /\ mediaRecorderRef s' = mediaRecorderRef s.
Proof.
  destruct s; repeat split.
Qed.

(** What [startRecording] leaves when the camera is on. *)
Lemma startRecording_fields (vp9 : bool) (outcome : EncoderOutcome) (now : Z)
    (s : State) :
  isCameraActive s = true ->
  mediaStreamRef s <> None ->
  let s' := startRecording vp9 outcome now s in
  recordedChunksRef s' = []
  /\ recordedBlob s' = None
  /\ isCameraActive s' = true
  /\ mediaStreamRef s' = mediaStreamRef s
  /\ match outcome with
     | EncoderOk =>
         isRecording s' = true
         /\ mediaRecorderRef s' = Some (length (recorders s))
         /\ (exists stream,
               mediaStreamRef s = Some stream
               /\ recorders s'
                  = recorders s
                    ++ [mkRecorder stream
                          (if vp9 then "video/webm; codecs=vp9" else "video/webm")
                          recording false])
         /\ status s' = "RECORDING..."
         /\ recordingStartTimeRef s' = Some now
         /\ timerIntervalRef s' = Some (nextHandle s)
     | ConstructorThrows error =>
         isRecording s' = isRecording s
         /\ mediaRecorderRef s' = mediaRecorderRef s
         /\ recorders s' = recorders s
         /\ status s' = ("Failed to start recording: " ++ errorMessage error)%string
     | StartThrows error =>
         isRecording s' = isRecording s
         /\ mediaRecorderRef s' = mediaRecorderRef s
         /\ (exists r, recorders s' = recorders s ++ [r]
                       /\ rec_stopQueued r = false /\ rec_state r = inactive
                       /\ isWebm (rec_mimeType r) = true)
         /\ status s' = ("Failed to start recording: " ++ errorMessage error)%string
     end.
Proof.
  intros Hcam Hms.
  destruct s as [v [stream|] mr ch tr st ca re bl stt ce ti rs iv nh et cs];
    simpl in *; [|congruence].
  subst ca. cbv zeta. unfold startRecording; simpl.
  destruct outcome as [|error|error]; simpl.
  - unfold startTimer, setInterval, recorderStart, newMediaRecorder; simpl.
    rewrite updateAt_snoc. unfold started; simpl.
    repeat split. exists stream. split; reflexivity.
  - repeat split.
  - repeat split. eexists. repeat split. destruct vp9; reflexivity.
Qed.

(** [startRecording] with the camera off only sets the status. *)
Lemma startRecording_camera_off (vp9 : bool) (outcome : EncoderOutcome)
    (now : Z) (s : State) :
  isCameraActive s = false \/ mediaStreamRef s = None ->
  startRecording vp9 outcome now s = set_status "Camera not active" s.
Proof.
  unfold startRecording.
  intros [H|H]; rewrite H; [reflexivity|].
  destruct (isCameraActive s); reflexivity.
Qed.

(** Splits [step e s = Some s'] into the handler that ran. *)
Ltac step_cases Hstep :=
  match type of Hstep with
  | step ?e ?s = Some ?s' =>
      destruct e as [result|vp9 outcome now| |iso|id data|id|handle now];
      simpl in Hstep;
      [ | | | |
        destruct (nth_error (recorders s) id) as [r|] eqn:Hnth; [|discriminate];
        destruct (notInactive (rec_state r) || rec_stopQueued r) eqn:Hlive;
        [|discriminate]
      | destruct (nth_error (recorders s) id) as [r|] eqn:Hnth; [|discriminate];
        destruct (rec_stopQueued r) eqn:Hqueued; [|discriminate]
      | destruct (existsb (Nat.eqb handle) (intervals s)) eqn:Hruns;
        [|discriminate] ];
      inversion Hstep; subst s'; clear Hstep
  end.

(** The recorders after one event. *)
Lemma step_recorders (e : Event) (s s' : State) :
  step e s = Some s' -> RecordersChange e (recorders s) (recorders s').
Proof.
  intros Hstep. step_cases Hstep.
  - destruct (startCamera_keeps result s) as (-> & _). constructor.
  - destruct (isCameraActive s) eqn:Hcam;
      [destruct (mediaStreamRef s) as [stream|] eqn:Hms|].
    + destruct (startRecording_fields vp9 outcome now s Hcam) as (_ & _ & _ & _ & H);
        [congruence|].
      destruct outcome as [|error|error].
      * destruct H as (_ & _ & (st & _ & ->) & _).
        apply rc_created; try reflexivity. destruct vp9; reflexivity.
      * destruct H as (_ & _ & -> & _). constructor.
      * destruct H as (_ & _ & (r & -> & Hq & _ & Hw) & _).
        apply rc_created; auto.
    + rewrite startRecording_camera_off by auto.
      replace (recorders (set_status "Camera not active" s)) with (recorders s)
        by (destruct s; reflexivity).
      constructor.
    + rewrite startRecording_camera_off by auto.
      replace (recorders (set_status "Camera not active" s)) with (recorders s)
        by (destruct s; reflexivity).
      constructor.
  - destruct (stopRecording_keeps s) as (_ & _ & _ & _ & _ & [->|[id ->]]);
      [constructor | apply rc_stopped; reflexivity].
  - destruct (downloadVideo_keeps iso s) as (-> & _). constructor.
  - destruct (ondataavailable_keeps data s) as (-> & _). constructor.
  - destruct (onstop_keeps id (rec_mimeType r) s) as (-> & _).
    eapply rc_dequeued; eauto.
  - destruct (timerCallback_keeps now s) as (-> & _). constructor.
Qed.

(** The buffer after one event that is no [startRecording]: what it was,
    followed by the data of the event when there is some. *)
Lemma step_buffer (e : Event) (s s' : State) :
  step e s = Some s' ->
  isStart e = false ->
  recordedChunksRef s' = recordedChunksRef s ++ filter nonEmpty (delivered [e]).
Proof.
  intros Hstep Hns. step_cases Hstep; try discriminate;
    simpl; rewrite ?app_nil_r.
  - apply startCamera_keeps.
  - apply stopRecording_keeps.
  - apply downloadVideo_keeps.
  - destruct (ondataavailable_keeps data s) as (_ & -> & _). reflexivity.
  - apply (onstop_keeps id (rec_mimeType r) s).
  - apply timerCallback_keeps.
Qed.

Lemma run_buffer (tr : list Event) (s s' : State) :
  run tr s = Some s' ->
  forallb (fun e => negb (isStart e)) tr = true ->
  recordedChunksRef s' = recordedChunksRef s ++ filter nonEmpty (delivered tr).
Proof.
  revert s; induction tr as [|e tr IH]; intros s Hrun Hns; simpl in *.
  - inversion Hrun; subst. rewrite app_nil_r. reflexivity.
  - destruct (step e s) as [s1|] eqn:Hstep; [|discriminate].
    apply andb_true_iff in Hns as [He Htr].
    apply negb_true_iff in He.
    rewrite (IH s1 Hrun Htr), (step_buffer e s s1 Hstep He).
    simpl. rewrite app_nil_r, filter_app, app_assoc. reflexivity.
Qed.

(** A recorder keeps its place in the list and its MIME type. *)
Lemma RecordersChange_keeps (e : Event) (rs rs' : list MediaRecorder)
    (id : nat) (r : MediaRecorder) :
  RecordersChange e rs rs' ->
  nth_error rs id = Some r ->
  exists r', nth_error rs' id = Some r'
             /\ rec_mimeType r' = rec_mimeType r
             /\ (isStopEvent e = false ->
                 rec_stopQueued r = true -> rec_stopQueued r' = true)
             /\ (isStart e = false ->
                 rec_state r = inactive -> rec_state r' = inactive).
Proof.
  intros Hch Hnth. destruct Hch as [|i Hreq|i q He Hq1 Hq2|q Hst Hq Hw].
  - exists r. auto.
  - rewrite nth_error_updateAt, Hnth.
    destruct (Nat.eqb i id); simpl; [|exists r; auto].
    exists (stopped r). unfold stopped.
    destruct (notInactive (rec_state r)) eqn:E; simpl; auto.
  - rewrite nth_error_updateAt, Hnth.
    destruct (Nat.eqb i id); simpl; [|exists r; auto].
    exists (dequeued r). subst e. simpl. repeat split; auto; discriminate.
  - exists r. split; [apply nth_error_snoc_old; exact Hnth | auto].
Qed.

Lemma run_recorder_kept (tr : list Event) (s s' : State) (id : nat)
    (r : MediaRecorder) :
  run tr s = Some s' ->
  nth_error (recorders s) id = Some r ->
  exists r', nth_error (recorders s') id = Some r'
             /\ rec_mimeType r' = rec_mimeType r.
Proof.
  revert s r; induction tr as [|e tr IH]; intros s r Hrun Hnth; simpl in *.
  - inversion Hrun; subst. exists r. auto.
  - destruct (step e s) as [s1|] eqn:Hstep; [|discriminate].
    destruct (RecordersChange_keeps e _ _ id r (step_recorders e s s1 Hstep) Hnth)
      as (r1 & Hnth1 & Hm1 & _).
    destruct (IH s1 r1 Hrun Hnth1) as (r' & Hnth' & Hm').
    exists r'. split; [exact Hnth' | congruence].
Qed.

(** ** The bytes of a blob made of fragments *)

Lemma concat_nonEmpty (l : list Blob) :
  concat (map blob_data (filter nonEmpty l)) = concat (map blob_data l).
Proof.
  induction l as [|b l IH]; simpl; [reflexivity|].
  unfold nonEmpty at 1, blob_size.
  destruct (blob_data b) as [|x d] eqn:Hd; simpl.
  - exact IH.
  - rewrite Hd, IH. reflexivity.
Qed.

Lemma newBlob_size (l : list Blob) (type : string) :
  blob_size (newBlob l type) = totalSize l.
Proof.
  unfold blob_size, newBlob; simpl.
  induction l as [|b l IH]; simpl; [reflexivity|].
  rewrite length_app, Nat2Z.inj_add, IH. reflexivity.
Qed.

Lemma totalSize_nonEmpty (l : list Blob) :
  totalSize (filter nonEmpty l) = totalSize l.
Proof.
  induction l as [|b l IH]; simpl; [reflexivity|].
  unfold nonEmpty at 1. destruct (0 <? blob_size b) eqn:E; simpl.
  - rewrite IH. reflexivity.
  - apply Z.ltb_ge in E. unfold blob_size in *. rewrite IH. lia.
Qed.

(** ** Between the start and the stop event *)

Lemma startRecording_flags (vp9 : bool) (outcome : EncoderOutcome) (now : Z)
    (s : State) :
  let s' := startRecording vp9 outcome now s in
  (recordedBlob s = None -> recordedBlob s' = None)
  /\ (isRecording s = true -> isRecording s' = true)
  /\ isCameraActive s' = isCameraActive s.
Proof.
  cbv zeta.
  destruct (isCameraActive s) eqn:Hcam;
    [destruct (mediaStreamRef s) as [stream|] eqn:Hms|].
  - destruct (startRecording_fields vp9 outcome now s Hcam)
      as (_ & Hbl & Hca & _ & H); [congruence|].
    split; [auto|]. split; [|exact Hca].
    destruct outcome; destruct H as (Hrec & _); congruence.
  - rewrite startRecording_camera_off by auto.
    split_and; destruct s; auto.
  - rewrite startRecording_camera_off by auto.
    split_and; destruct s; auto.
Qed.

(** Only a [stop] event brings a recorded blob. *)
Lemma step_artifact_absent (e : Event) (s s' : State) :
  step e s = Some s' ->
  isStopEvent e = false ->
  recordedBlob s = None ->
  recordedBlob s' = None.
Proof.
  intros Hstep Hns Hnone. step_cases Hstep; try discriminate.
  - destruct (startCamera_keeps result s) as (_ & _ & -> & _). exact Hnone.
  - apply startRecording_flags, Hnone.
  - destruct (stopRecording_keeps s) as (_ & -> & _). exact Hnone.
  - destruct (downloadVideo_keeps iso s) as (_ & _ & -> & _). exact Hnone.
  - destruct (ondataavailable_keeps data s) as (_ & _ & -> & _). exact Hnone.
  - destruct (timerCallback_keeps now s) as (_ & _ & -> & _). exact Hnone.
Qed.

(** Only a stop request takes the recording and camera flags down. *)
Lemma step_keeps_recording (e : Event) (s s' : State) :
  step e s = Some s' ->
  isStopRequest e = false ->
  isRecording s = true /\ isCameraActive s = true ->
  isRecording s' = true /\ isCameraActive s' = true.
Proof.
  intros Hstep Hns [Hrec Hcam]. step_cases Hstep; try discriminate.
  - destruct (startCamera_keeps result s) as (_ & _ & _ & -> & _).
    split; [exact Hrec|].
    destruct result; destruct s as [[?|] ? ? ? ? ? ? ? ? ? ? ? ? ? ? ? ?];
      simpl in *; auto.
  - destruct (startRecording_flags vp9 outcome now s) as (_ & H1 & H2).
    split; [auto | congruence].
  - destruct (downloadVideo_keeps iso s) as (_ & _ & _ & -> & -> & _). auto.
  - destruct (ondataavailable_keeps data s) as (_ & _ & _ & -> & -> & _). auto.
  - destruct (onstop_keeps id (rec_mimeType r) s) as (_ & _ & _ & -> & -> & _).
    auto.
  - destruct (timerCallback_keeps now s) as (_ & _ & _ & -> & -> & _). auto.
Qed.

(** Only [startRecording] raises the recording flag. *)
Lemma step_keeps_idle (e : Event) (s s' : State) :
  step e s = Some s' ->
  isStart e = false ->
  isRecording s = false ->
  isRecording s' = false.
Proof.
  intros Hstep Hns Hrec. step_cases Hstep; try discriminate.
  - destruct (startCamera_keeps result s) as (_ & _ & _ & -> & _). exact Hrec.
  - destruct (stopRecording_cases s)
      as [[_ ->]|(id & r & Href & Hnth & Hact & _ & ->)]; [exact Hrec|].
    apply (stop_active_fields s id r Href Hnth Hact).
  - destruct (downloadVideo_keeps iso s) as (_ & _ & _ & -> & _). exact Hrec.
  - destruct (ondataavailable_keeps data s) as (_ & _ & _ & -> & _). exact Hrec.
  - destruct (onstop_keeps id (rec_mimeType r) s) as (_ & _ & _ & -> & _).
    exact Hrec.
  - destruct (timerCallback_keeps now s) as (_ & _ & _ & -> & _). exact Hrec.
Qed.

Lemma existsb_nth_error {A} (f : A -> bool) (l : list A) (i : nat) (x : A) :
  existsb f l = false -> nth_error l i = Some x -> f x = false.
Proof.
  intros Hall Hnth. apply nth_error_In in Hnth.
  destruct (f x) eqn:E; [|reflexivity].
  assert (existsb f l = true) by (apply existsb_exists; eauto). congruence.
Qed.

(** With no [stop] event queued, none gets queued without a stop request,
    and none can fire. *)
Lemma step_none_queued (e : Event) (s s' : State) :
  step e s = Some s' ->
  isStopRequest e = false ->
  stopsQueued s = false ->
  stopsQueued s' = false /\ isStopEvent e = false.
Proof.
  intros Hstep Hns Hq. unfold stopsQueued in *.
  split.
  - destruct (step_recorders e s s' Hstep)
      as [|i Hreq|i q He Hq1 Hq2|q Hst Hq2 Hw].
    + exact Hq.
    + congruence.
    + rewrite (existsb_nth_error _ _ _ _ Hq Hq1) in Hq2. discriminate.
    + rewrite existsb_app, Hq. simpl. rewrite Hq2. reflexivity.
  - destruct e; try reflexivity. simpl in Hstep.
    destruct (nth_error (recorders s) id) as [r|] eqn:Hnth; [|discriminate].
    rewrite (existsb_nth_error _ _ _ _ Hq Hnth) in Hstep. discriminate.
Qed.

(** While a recording runs, no [stop] event being queued at its start, no
    recorded blob appears before a stop request. *)
Lemma run_recording_no_artifact (tr : list Event) (s s' : State) :
  run tr s = Some s' ->
  forallb (fun e => negb (isStopRequest e)) tr = true ->
  stopsQueued s = false ->
  recordedBlob s = None ->
  isRecording s = true /\ isCameraActive s = true ->
  stopsQueued s' = false
  /\ recordedBlob s' = None
  /\ isRecording s' = true /\ isCameraActive s' = true.
Proof.
  revert s; induction tr as [|e tr IH]; intros s Hrun Hns Hq Hnone Hrec;
    simpl in *.
  - inversion Hrun; subst. tauto.
  - destruct (step e s) as [s1|] eqn:Hstep; [|discriminate].
    apply andb_true_iff in Hns as [He Htr]. apply negb_true_iff in He.
    destruct (step_none_queued e s s1 Hstep He Hq) as [Hq1 Hse].
    apply (IH s1 Hrun Htr Hq1).
    + apply (step_artifact_absent e s s1 Hstep Hse Hnone).
    + apply (step_keeps_recording e s s1 Hstep He Hrec).
Qed.

(** After the stop request and before the [stop] event: no recorded blob, no
    recording, and the event of recorder [id] stays queued. *)
Lemma run_waiting_for_stop_event (tr : list Event) (s s' : State) (id : nat)
    (r : MediaRecorder) :
  run tr s = Some s' ->
  forallb (fun e => negb (isStopEvent e) && negb (isStart e)) tr = true ->
  recordedBlob s = None ->
  isRecording s = false ->
  nth_error (recorders s) id = Some r ->
  rec_stopQueued r = true ->
  recordedBlob s' = None
  /\ isRecording s' = false
  /\ exists r', nth_error (recorders s') id = Some r'
                /\ rec_stopQueued r' = true
                /\ rec_mimeType r' = rec_mimeType r.
Proof.
  revert s r; induction tr as [|e tr IH]; intros s r Hrun Hns Hnone Hrec Hnth Hq;
    simpl in *.
  - inversion Hrun; subst. split; [auto|]. split; [auto|]. exists r. auto.
  - destruct (step e s) as [s1|] eqn:Hstep; [|discriminate].
    apply andb_true_iff in Hns as [He Htr].
    apply andb_true_iff in He as [He1 He2].
    apply negb_true_iff in He1, He2.
    destruct (RecordersChange_keeps e _ _ id r (step_recorders e s s1 Hstep) Hnth)
      as (r1 & Hnth1 & Hm1 & Hq1 & _).
    destruct (IH s1 r1 Hrun Htr) as (Hb & Hr & r' & Hnth' & Hq' & Hm'); auto.
    + apply (step_artifact_absent e s s1 Hstep He1 Hnone).
    + apply (step_keeps_idle e s s1 Hstep He2 Hrec).
    + split; [exact Hb|]. split; [exact Hr|].
      exists r'. split; [exact Hnth'|]. split; [exact Hq' | congruence].
Qed.

Lemma hasArtifact_false (s : State) :
  hasArtifact s = false <-> recordedBlob s = None.
Proof.
  unfold hasArtifact, offersDownload.
  destruct (recordedBlob s); split; intros H; congruence.
Qed.

(** A stop request while a recording runs leaves the flag down, the timer
    stopped, the recorder inactive and its [stop] event queued; when that
    event fires the recorded blob is there. *)
Lemma stop_then_event (s : State) :
  wf s = true ->
  isRecording s = true ->
  isCameraActive s = true ->
  let s' := stopRecording s in
  isRecording s' = false
  /\ recorderActive s' = false
  /\ timerIntervalRef s' = None
  /\ recordedBlob s' = recordedBlob s
  /\ isCameraActive s' = true
  /\ exists id r,
       mediaRecorderRef s = Some id
       /\ nth_error (recorders s') id = Some r
       /\ rec_stopQueued r = true.
Proof.
  intros Hwf Hrec Hcam. cbv zeta.
  apply wf_iff in Hwf. destruct Hwf as (_ & Hact & _).
  destruct (stopRecording_cases s)
    as [[Hin _]|(id & r & Href & Hnth & Hon & _ & ->)]; [congruence|].
  destruct (stop_active_fields s id r Href Hnth Hon)
    as (H1 & H2 & H3 & H4 & H5 & _ & _ & H6 & _).
  split; [exact H1|]. split; [exact H3|]. split; [exact H2|].
  split; [exact H6|]. split; [congruence|].
  exists id, (mkRecorder (rec_stream r) (rec_mimeType r) inactive true).
  split; [exact Href|]. split; [exact H4 | reflexivity].
Qed.

(** A queued [stop] event can fire, and brings the recorded blob. *)
Lemma stop_event_fires (s : State) (id : nat) (r : MediaRecorder) :
  nth_error (recorders s) id = Some r ->
  rec_stopQueued r = true ->
  exists s', step (EvStop id) s = Some s'
             /\ recordedBlob s' = Some (newBlob (recordedChunksRef s) (rec_mimeType r))
             /\ hasArtifact s' = true
             /\ isRecording s' = isRecording s
             /\ isCameraActive s' = isCameraActive s.
Proof.
  intros Hnth Hq. unfold step. rewrite Hnth, Hq.
  eexists. split; [reflexivity|].
  destruct (onstop_keeps id (rec_mimeType r) s) as (_ & _ & Hb & Hr & Hc & _).
  unfold hasArtifact, offersDownload. rewrite Hb. auto.
Qed.

(** ** Recording again *)




(** ** Between the stop request and the stop event *)

(** An effective stop request calls [stop] on the held recorder and then
    [clearInterval] on the held handle, and nothing else; that interval runs
    no more and cannot tick. *)
Lemma stop_cancels_interval (s : State) :
  wf s = true ->
  isRecording s = true ->
  exists id handle,
    mediaRecorderRef s = Some id
    /\ timerIntervalRef s = Some handle
    /\ calls (stopRecording s)
       = calls s ++ [CallRecorderStop id; CallClearInterval handle]
    /\ existsb (Nat.eqb handle) (intervals (stopRecording s)) = false
    /\ (forall now, step (EvTick handle now) (stopRecording s) = None).
Proof.
  intros Hwf Hrec. apply wf_iff in Hwf. destruct Hwf as (_ & F2 & F3 & _).
  rewrite Hrec in F3.
  destruct (timerIntervalRef s) as [handle|] eqn:Hti; [|discriminate].
  destruct (stopRecording_cases s)
    as [[Hin _]|(id & r & Href & Hnth & Hact & _ & ->)]; [congruence|].
  destruct (stop_active_fields s id r Href Hnth Hact)
    as (_ & _ & _ & _ & _ & _ & _ & _ & _ & _ & Hcalls).
  destruct (stop_active_timer s id) as (Hiv & _).
  rewrite Hti in Hcalls, Hiv.
  assert (Hout : existsb (Nat.eqb handle)
                   (intervals (stopTimer (set_isRecording false (recorderStop id s))))
                 = false)
    by (rewrite Hiv; apply existsb_filter_out).
  exists id, handle. split; [exact Href|]. split; [reflexivity|].
  split; [exact Hcalls|]. split; [exact Hout|].
  intros now. unfold step. rewrite Hout. reflexivity.
Qed.

(** C10, as the code has it: a recording is started with the camera on, no
    [stop] event of an earlier recorder being queued, and events follow that
    request no stop.  Right after [stopRecording] the recording flag is down
    and the recorder inactive; the timer is stopped: [clearInterval] was
    called on the held handle, that interval runs no more and cannot tick,
    and no handle is held; and no recorded blob is there: the start dropped
    it and only a [stop] event assigns one.  As long as that event has not
    fired and no new recording is started, nothing changes in that; the event
    can fire at any such point, and assigns the recorded blob. *)
Theorem artifact_absent_until_stop_event (vp9 : bool) (now : Z)
    (tr : list Event) (s s2 : State) :
  wf s = true ->
  isCameraActive s = true ->
  stopsQueued s = false ->
  forallb (fun e => negb (isStopRequest e)) tr = true ->
  run tr (startRecording vp9 EncoderOk now s) = Some s2 ->
  let s3 := stopRecording s2 in
  isRecording s3 = false
  /\ recorderActive s3 = false
  /\ timerIntervalRef s3 = None
  /\ hasArtifact s3 = false
  /\ exists id handle,
       mediaRecorderRef s2 = Some id
       /\ timerIntervalRef s2 = Some handle
       /\ calls s3 = calls s2 ++ [CallRecorderStop id; CallClearInterval handle]
       /\ existsb (Nat.eqb handle) (intervals s3) = false
       /\ (forall now', step (EvTick handle now') s3 = None)
       /\ forall tr' s4,
            forallb (fun e => negb (isStopEvent e) && negb (isStart e)) tr' = true ->
            run tr' s3 = Some s4 ->
            hasArtifact s4 = false
            /\ isRecording s4 = false
            /\ exists s5, step (EvStop id) s4 = Some s5 /\ hasArtifact s5 = true.
Proof.
  intros Hwf Hcam Hq Hns Hrun s3.
  assert (Hms : mediaStreamRef s <> None).
  { apply wf_iff in Hwf. destruct Hwf as (H1 & _). rewrite Hcam in H1.
    destruct (mediaStreamRef s); discriminate. }
  destruct (startRecording_fields vp9 EncoderOk now s Hcam Hms)
    as (_ & Hbl & Hca & _ & Hrec1 & _ & (stream & _ & Hrs) & _).
  assert (Hq1 : stopsQueued (startRecording vp9 EncoderOk now s) = false).
  { unfold stopsQueued in *. rewrite Hrs, existsb_app, Hq. reflexivity. }
  assert (Hwf1 : wf (startRecording vp9 EncoderOk now s) = true)
    by (apply startRecording_wf, Hwf).
  destruct (run_recording_no_artifact tr _ s2 Hrun Hns Hq1 Hbl (conj Hrec1 Hca))
    as (_ & Hbl2 & Hrec2 & Hca2).
  pose proof (run_wf tr _ s2 Hwf1 Hrun) as Hwf2.
  destruct (stop_then_event s2 Hwf2 Hrec2 Hca2)
    as (Hr3 & Ha3 & Ht3 & Hb3 & _ & id & r & Href & Hnth & Hqueued).
  destruct (stop_cancels_interval s2 Hwf2 Hrec2)
    as (id' & handle & Href' & Hti & Hcalls & Hout & Htick).
  assert (id' = id) by congruence. subst id'.
  fold s3 in Hr3, Ha3, Ht3, Hb3, Hnth, Hcalls, Hout, Htick.
  rewrite Hbl2 in Hb3.
  split; [exact Hr3|]. split; [exact Ha3|]. split; [exact Ht3|].
  split; [apply hasArtifact_false, Hb3|].
  exists id, handle. split; [exact Href|]. split; [exact Hti|].
  split; [exact Hcalls|]. split; [exact Hout|]. split; [exact Htick|].
  intros tr' s4 Hns' Hrun'.
  destruct (run_waiting_for_stop_event tr' s3 s4 id r Hrun' Hns' Hb3 Hr3 Hnth Hqueued)
    as (Hb4 & Hr4 & r' & Hnth' & Hq' & _).
  split; [apply hasArtifact_false, Hb4|]. split; [exact Hr4|].
  destruct (stop_event_fires s4 id r' Hnth' Hq') as (s5 & Hstep & _ & Hart & _).
  exists s5. split; [exact Hstep | exact Hart].
Qed.

Lemma artifact_absent_until_stop_event_witness :
  exists s2,
    run (firstn 6 scenarioA) (startRecording true EncoderOk 1000 cameraReady)
    = Some s2
    /\ isRecording (stopRecording s2) = false
    /\ hasArtifact (stopRecording s2) = false
    /\ timerIntervalRef (stopRecording s2) = None
    /\ intervals (stopRecording s2) = [].
Proof.
  pose (s2 := match run (firstn 6 scenarioA) recordingNow with
              | Some x => x
              | None => initialState
              end).
  assert (H1 : run (firstn 6 scenarioA)
                 (startRecording true EncoderOk 1000 cameraReady) = Some s2)
    by (vm_compute; reflexivity).
  assert (H0 : forallb (fun e => negb (isStopRequest e)) (firstn 6 scenarioA)
               = true) by reflexivity.
  pose proof (artifact_absent_until_stop_event true 1000 (firstn 6 scenarioA)
                cameraReady s2 eq_refl eq_refl eq_refl H0 H1) as H.
  cbv zeta in H. destruct H as (Hr & _ & Ht & Ha & _).
  exists s2. split; [exact H1|]. split; [exact Hr|]. split; [exact Ha|].
  split; [exact Ht | vm_compute; reflexivity].
Defined.

(** C10, as stated, fails when recordings overlap.  With clicks on rendered
    buttons only: a second recording is started before the [stop] event of
    the first, and that event fires while the second runs, so a recorded blob
    is there.  Right after the stop request of the second recording nothing
    records, its [stop] event is queued and has not fired, and the recorded
    blob is there; it is still there when that event fires. *)
Lemma artifact_present_after_stop :
  option_map (fun s => (wf s, isRecording s, hasArtifact s))
    (runOffered overlapRecording initialState)
  = Some (true, true, true)
  /\ option_map (fun s => (isRecording (stopRecording s),
                           hasArtifact (stopRecording s),
                           stopsQueued (stopRecording s)))
       (runOffered overlapRecording initialState)
     = Some (false, true, true)
  /\ option_map (fun s => (isRecording s, hasArtifact s, stopsQueued s))
       (runOffered (overlapRecording ++ [EvStopRecording; EvStop 1]) initialState)
     = Some (false, true, false).
Proof.
  vm_compute. repeat split.
Qed.

(** ** The format of the recording *)

Lemma forallb_updateAt {A} (p : A -> bool) (f : A -> A) (l : list A) (i : nat) :
  (forall x, p (f x) = p x) ->
  forallb p (updateAt i f l) = forallb p l.
Proof.
  intros Hf. revert i; induction l as [|x l IH]; intros [|i]; simpl;
    rewrite ?Hf, ?IH; reflexivity.
Qed.

(** The recorded blob after one event: the one before, or none, or the one a
    [stop] event makes with the type of its recorder. *)
Lemma step_artifact (e : Event) (s s' : State) :
  step e s = Some s' ->
  recordedBlob s' = recordedBlob s
  \/ recordedBlob s' = None
  \/ exists id r, e = EvStop id
                  /\ nth_error (recorders s) id = Some r
                  /\ recordedBlob s'
                     = Some (newBlob (recordedChunksRef s) (rec_mimeType r)).
Proof.
  intros Hstep. step_cases Hstep.
  - left. apply startCamera_keeps.
  - destruct (isCameraActive s) eqn:Hcam;
      [destruct (mediaStreamRef s) as [stream|] eqn:Hms|].
    + right. left. apply startRecording_fields; congruence.
    + left. rewrite startRecording_camera_off by auto. destruct s; reflexivity.
    + left. rewrite startRecording_camera_off by auto. destruct s; reflexivity.
  - left. apply stopRecording_keeps.
  - left. apply downloadVideo_keeps.
  - left. apply ondataavailable_keeps.
  - right. right. exists id, r. split; [reflexivity|]. split; [exact Hnth|].
    apply (onstop_keeps id (rec_mimeType r) s).
  - left. apply timerCallback_keeps.
Qed.

Lemma step_webmOnly (e : Event) (s s' : State) :
  step e s = Some s' -> webmOnly s = true -> webmOnly s' = true.
Proof.
  intros Hstep Hw. unfold webmOnly in *.
  apply andb_true_iff in Hw as [Hrs Hb]. apply andb_true_iff. split.
  - destruct (step_recorders e s s' Hstep) as [|i Hreq|i q He Hq1 Hq2|q Hst Hq Hweb].
    + exact Hrs.
    + rewrite forallb_updateAt; [exact Hrs|].
      intros x. unfold stopped. destruct (notInactive (rec_state x)); reflexivity.
    + rewrite forallb_updateAt; [exact Hrs | reflexivity].
    + rewrite forallb_app, Hrs. simpl. rewrite Hweb. reflexivity.
  - destruct (step_artifact e s s' Hstep) as [->|[->|(id & r & _ & Hnth & ->)]].
    + exact Hb.
    + reflexivity.
    + simpl. rewrite forallb_forall in Hrs.
      apply Hrs. apply nth_error_In with id. exact Hnth.
Qed.

(** Every recorded blob the component can hold is a WebM blob: the fixed
    ".webm" of the download name fits whatever format was settled on. *)
Lemma recorded_blob_is_webm (s : State) (blob : Blob) :
  reachable s ->
  recordedBlob s = Some blob ->
  blob_type blob = "video/webm; codecs=vp9" \/ blob_type blob = "video/webm".
Proof.
  intros [tr Hrun] Hblob.
  assert (Hw : webmOnly s = true).
  { assert (Hgen : forall tr s0 s1,
               run tr s0 = Some s1 -> webmOnly s0 = true -> webmOnly s1 = true).
    { clear. intros tr. induction tr as [|e tr IH]; intros s0 s1 Hrun Hw;
        simpl in Hrun.
      - inversion Hrun; subst. exact Hw.
      - destruct (step e s0) as [s2|] eqn:Hstep; [|discriminate].
        apply (IH s2 s1 Hrun). apply (step_webmOnly e s0 s2 Hstep Hw). }
    apply (Hgen tr initialState s Hrun). reflexivity. }
  unfold webmOnly in Hw. rewrite Hblob in Hw.
  apply andb_true_iff in Hw as [_ Hw]. unfold isWebm in Hw.
  apply orb_true_iff in Hw as [Hw|Hw]; apply String.eqb_eq in Hw; auto.
Qed.

(** ** A whole recording runs *)

Lemma run_app (tr1 tr2 : list Event) (s : State) :
  run (tr1 ++ tr2) s
  = match run tr1 s with
    | Some s1 => run tr2 s1
    | None => None
    end.
Proof.
  revert s; induction tr1 as [|e tr1 IH]; intros s; simpl; [reflexivity|].
  destruct (step e s); [apply IH | reflexivity].
Qed.

Lemma delivered_app (tr1 tr2 : list Event) :
  delivered (tr1 ++ tr2) = delivered tr1 ++ delivered tr2.
Proof.
  unfold delivered. apply flat_map_app.
Qed.

Lemma delivered_map (id : nat) (fragments : list Blob) :
  delivered (map (EvDataAvailable id) fragments) = fragments.
Proof.
  induction fragments as [|b l IH]; simpl; [reflexivity | rewrite IH; reflexivity].
Qed.

(** A recorder that records, or whose [stop] event is queued, can deliver any
    fragments; that changes neither the recorders nor the flags. *)
Lemma deliveries_run (id : nat) (fragments : list Blob) (s : State)
    (r : MediaRecorder) :
  nth_error (recorders s) id = Some r ->
  notInactive (rec_state r) || rec_stopQueued r = true ->
  exists s', run (map (EvDataAvailable id) fragments) s = Some s'
             /\ recorders s' = recorders s
             /\ mediaRecorderRef s' = mediaRecorderRef s
             /\ isRecording s' = isRecording s
             /\ isCameraActive s' = isCameraActive s
             /\ recordedBlob s' = recordedBlob s
             /\ recordedChunksRef s'
                = recordedChunksRef s ++ filter nonEmpty fragments.
Proof.
  intros Hnth Hlive. revert s Hnth.
  induction fragments as [|b l IH]; intros s Hnth; simpl.
  - exists s. rewrite app_nil_r. repeat split.
  - rewrite Hnth, Hlive.
    destruct (ondataavailable_keeps b s) as (H1 & H2 & H3 & H4 & H5 & H6).
    destruct (IH (ondataavailable b s)) as (s' & Hrun & G1 & G2 & G3 & G4 & G5 & G6);
      [rewrite H1; exact Hnth|].
    exists s'. split; [exact Hrun|].
    split; [congruence|]. split; [congruence|]. split; [congruence|].
    split; [congruence|]. split; [congruence|].
    rewrite G6, H2. simpl. rewrite <- app_assoc.
    destruct (nonEmpty b); reflexivity.
Qed.

(** With the camera on, a recording runs from its start to the [stop] event,
    whatever fragments the encoder delivers before the stop request
    ([before]) and flushes after it ([after]); it ends in the Recorded state,
    and the recorded blob is made of the fragments that are not empty. *)
Lemma complete_session_runs (vp9 : bool) (now : Z) (before after : list Blob)
    (s : State) :
  isCameraActive s = true ->
  mediaStreamRef s <> None ->
  let id := length (recorders s) in
  exists s',
    run (map (EvDataAvailable id) before
         ++ EvStopRecording :: map (EvDataAvailable id) after ++ [EvStop id])
      (startRecording vp9 EncoderOk now s) = Some s'
    /\ recordedBlob s'
       = Some (newBlob (filter nonEmpty (before ++ after))
                 (if vp9 then "video/webm; codecs=vp9" else "video/webm"))
    /\ sessionState s' = Recorded.
Proof.
  intros Hcam Hms id.
  destruct (startRecording_fields vp9 EncoderOk now s Hcam Hms)
    as (Hbuf & _ & Hca & _ & Hrec1 & Href1 & (stream & _ & Hrs) & _).
  set (s1 := startRecording vp9 EncoderOk now s) in *.
  set (mime := if vp9 then "video/webm; codecs=vp9" else "video/webm") in *.
  assert (Hnth1 : nth_error (recorders s1) id
                  = Some (mkRecorder stream mime recording false))
    by (rewrite Hrs; apply nth_error_snoc_new).
  destruct (deliveries_run id before s1 _ Hnth1 eq_refl)
    as (s2 & Hrun2 & Hrs2 & Href2 & Hrec2 & Hca2 & _ & Hch2).
  assert (Hnth2 : nth_error (recorders s2) id
                  = Some (mkRecorder stream mime recording false))
    by (rewrite Hrs2; exact Hnth1).
  assert (Href2' : mediaRecorderRef s2 = Some id)
    by (rewrite Href2; exact Href1).
  destruct (stop_active_fields s2 id _ Href2' Hnth2 eq_refl)
    as (Hrec3 & _ & _ & Hnth3 & Hca3 & _ & _ & _ & Hch3 & _).
  assert (Hstop : stopRecording s2
                  = stopTimer (set_isRecording false (recorderStop id s2))).
  { destruct (stopRecording_cases s2)
      as [[Hin _]|(id' & r' & Href' & _ & _ & _ & E)].
    - unfold recorderActive, currentRecorder in Hin.
      rewrite Href2', Hnth2 in Hin. discriminate.
    - rewrite Href2' in Href'. inversion Href'; subst id'. exact E. }
  rewrite <- Hstop in Hrec3, Hnth3, Hca3, Hch3. simpl in Hnth3.
  destruct (deliveries_run id after (stopRecording s2) _ Hnth3 eq_refl)
    as (s4 & Hrun4 & Hrs4 & _ & Hrec4 & Hca4 & _ & Hch4).
  assert (Hnth4 : nth_error (recorders s4) id
                  = Some (mkRecorder stream mime inactive true))
    by (rewrite Hrs4; exact Hnth3).
  destruct (stop_event_fires s4 id _ Hnth4 eq_refl)
    as (s5 & Hstep & Hblob & Hart & Hrec5 & Hca5).
  exists s5. split.
  - rewrite run_app, Hrun2. cbn [run step]. rewrite run_app, Hrun4.
    cbn [run]. rewrite Hstep. reflexivity.
  - split.
    + rewrite Hblob. simpl rec_mimeType.
      rewrite Hch4, Hch3, Hch2, Hbuf. simpl. rewrite filter_app. reflexivity.
    + unfold sessionState.
      rewrite Hca5, Hca4, Hca3, Hca2, Hca, Hrec5, Hrec4, Hrec3, Hart.
      reflexivity.
Qed.

(** ** The recording is the fragments, in order *)

(** Events that start no recording leave the finished recorders finished. *)
Lemma RecordersChange_others (e : Event) (rs rs' : list MediaRecorder)
    (id : nat) :
  RecordersChange e rs rs' ->
  isStart e = false ->
  (forall i r, nth_error rs i = Some r -> i <> id -> finished r = true) ->
  forall i r, nth_error rs' i = Some r -> i <> id -> finished r = true.
Proof.
  intros Hch Hns Hfin i r Hnth Hne.
  destruct Hch as [|j Hreq|j q He Hq1 Hq2|q Hst Hq Hw].
  - apply (Hfin i r Hnth Hne).
  - rewrite nth_error_updateAt in Hnth.
    destruct (Nat.eqb j i); [|apply (Hfin i r Hnth Hne)].
    destruct (nth_error rs i) as [r0|] eqn:Hr0; [|discriminate].
    simpl in Hnth. inversion Hnth; subst r.
    pose proof (Hfin i r0 Hr0 Hne) as H0.
    unfold finished in H0. apply andb_true_iff in H0 as [H0 _].
    apply negb_true_iff in H0. unfold stopped. rewrite H0.
    apply (Hfin i r0 Hr0 Hne).
  - rewrite nth_error_updateAt in Hnth.
    destruct (Nat.eqb j i); [|apply (Hfin i r Hnth Hne)].
    destruct (nth_error rs i) as [r0|] eqn:Hr0; [|discriminate].
    simpl in Hnth. inversion Hnth; subst r.
    pose proof (Hfin i r0 Hr0 Hne) as H0.
    unfold finished in *. apply andb_true_iff in H0 as [H0 _].
    simpl. rewrite H0. reflexivity.
  - congruence.
Qed.

(** When all the other recorders have finished and no recording is started,
    every fragment that arrives is recorder [id]'s. *)
Lemma run_only_mine (id : nat) (tr : list Event) (s s' : State) :
  run tr s = Some s' ->
  forallb (fun e => negb (isStart e)) tr = true ->
  (forall i r, nth_error (recorders s) i = Some r -> i <> id -> finished r = true) ->
  delivered tr = deliveredBy id tr.
Proof.
  revert s; induction tr as [|e tr IH]; intros s Hrun Hns Hfin; simpl in *;
    [reflexivity|].
  destruct (step e s) as [s1|] eqn:Hstep; [|discriminate].
  apply andb_true_iff in Hns as [He Htr]. apply negb_true_iff in He.
  assert (Hrest : delivered tr = deliveredBy id tr).
  { apply (IH s1 Hrun Htr).
    apply (RecordersChange_others e _ _ id (step_recorders e s s1 Hstep) He Hfin). }
  unfold delivered, deliveredBy in *. simpl. rewrite Hrest.
  destruct e as [result|vp9 outcome now| |iso|i data|i|handle now];
    try reflexivity.
  simpl in Hstep.
  destruct (nth_error (recorders s) i) as [r|] eqn:Hnth; [|discriminate].
  destruct (notInactive (rec_state r) || rec_stopQueued r) eqn:Hlive;
    [|discriminate].
  destruct (Nat.eqb_spec i id) as [->|Hne]; [reflexivity|].
  pose proof (Hfin i r Hnth Hne) as H0. unfold finished in H0.
  apply andb_true_iff in H0 as [H1 H2].
  apply negb_true_iff in H1, H2. rewrite H1, H2 in Hlive. discriminate.
Qed.

(** C1, as the code has it: take any state with the camera on in which every
    earlier recorder has finished, and start a recording there (the encoder
    [id] is created).  First, the recording runs to its end whatever
    fragments the encoder delivers before the stop request and flushes after
    it, and the recorded blob is then made of those fragments.  Second, let
    any events follow the start that start no other recording: deliveries of
    fragments, ticks, the stop request, the data flushed after it.  Every
    fragment that arrives is then this encoder's, and when its [stop] event
    fires the recorded blob holds the bytes of those fragments, in the order
    of delivery: nothing is left out but the empty fragments (which hold no
    byte), nothing comes twice; its size is the sum of the sizes of the
    fragments that were not empty; its type is the format the start settled
    on. *)
Theorem recording_is_fragments_in_order (vp9 : bool) (now : Z) (s : State) :
  isCameraActive s = true ->
  mediaStreamRef s <> None ->
  allFinished s = true ->
  let id := length (recorders s) in
  let s1 := startRecording vp9 EncoderOk now s in
  let mimeType := if vp9 then "video/webm; codecs=vp9" else "video/webm" in
  (forall before after : list Blob,
      exists s'',
        run (map (EvDataAvailable id) before
             ++ EvStopRecording :: map (EvDataAvailable id) after ++ [EvStop id])
          s1 = Some s''
        /\ recordedBlob s''
           = Some (newBlob (filter nonEmpty (before ++ after)) mimeType)
        /\ sessionState s'' = Recorded)
  /\ (forall (tr : list Event) (s' s'' : State),
        forallb (fun e => negb (isStart e)) tr = true ->
        run tr s1 = Some s' ->
        step (EvStop id) s' = Some s'' ->
        let fragments := filter nonEmpty (deliveredBy id tr) in
        delivered tr = deliveredBy id tr
        /\ exists blob,
             recordedBlob s'' = Some blob
             /\ blob_data blob = concat (map blob_data fragments)
             /\ blob_data blob = concat (map blob_data (deliveredBy id tr))
             /\ blob_size blob = totalSize fragments
             /\ blob_type blob = mimeType).
Proof.
  intros Hcam Hms Hfin id s1 mimeType. split.
  - intros before after.
    apply (complete_session_runs vp9 now before after s Hcam Hms).
  - intros tr s' s'' Hns Hrun Hstop fragments.
    destruct (startRecording_fields vp9 EncoderOk now s Hcam Hms)
      as (Hbuf & _ & _ & _ & _ & _ & (stream & _ & Hrs) & _).
    fold s1 in Hbuf, Hrs. fold mimeType in Hrs.
    assert (Hmine : delivered tr = deliveredBy id tr).
    { apply (run_only_mine id tr s1 s' Hrun Hns).
      intros i r Hnth Hne. rewrite Hrs in Hnth.
      apply nth_error_snoc_cases in Hnth as [Hold|[Hi _]]; [|contradiction].
      unfold allFinished in Hfin. rewrite forallb_forall in Hfin.
      apply Hfin. apply nth_error_In with i. exact Hold. }
    split; [exact Hmine|].
    pose proof (run_buffer tr s1 s' Hrun Hns) as Hchunks.
    rewrite Hbuf, Hmine in Hchunks. simpl in Hchunks. fold fragments in Hchunks.
    assert (Hnew : nth_error (recorders s1) id
                   = Some (mkRecorder stream mimeType recording false))
      by (rewrite Hrs; apply nth_error_snoc_new).
    destruct (run_recorder_kept tr s1 s' _ _ Hrun Hnew) as (r' & Hnth' & Hmime).
    simpl in Hmime. unfold step in Hstop. rewrite Hnth' in Hstop.
    destruct (rec_stopQueued r'); [|discriminate].
    inversion Hstop; subst s''; clear Hstop.
    destruct (onstop_keeps id (rec_mimeType r') s') as (_ & _ & Hblob & _).
    rewrite Hblob, Hchunks, Hmime.
    eexists. split; [reflexivity|].
    split; [reflexivity|].
    split; [simpl; apply concat_nonEmpty|].
    split; [apply newBlob_size | reflexivity].
Qed.

Lemma recording_is_fragments_in_order_witness :
  exists s' s'' blob,
    run scenarioA (startRecording true EncoderOk 1000 cameraReady) = Some s'
    /\ step (EvStop 0) s' = Some s''
    /\ recordedBlob s'' = Some blob
    /\ blob_size blob = 35
    /\ sessionState s'' = Recorded.
Proof.
  pose (s' := match run scenarioA recordingNow with
              | Some x => x
              | None => initialState
              end).
  pose (s'' := match step (EvStop 0) s' with
               | Some x => x
               | None => initialState
               end).
  assert (H1 : run scenarioA (startRecording true EncoderOk 1000 cameraReady)
               = Some s') by (vm_compute; reflexivity).
  assert (H2 : step (EvStop 0) s' = Some s'') by (vm_compute; reflexivity).
  assert (H0 : forallb (fun e => negb (isStart e)) scenarioA = true)
    by reflexivity.
  pose proof (recording_is_fragments_in_order true 1000 cameraReady
                eq_refl ltac:(discriminate) eq_refl) as H.
  cbv zeta in H. destruct H as [_ H].
  destruct (H scenarioA s' s'' H0 H1 H2)
    as (_ & blob & Hblob & _ & _ & Hsize & _).
  exists s', s'', blob.
  split; [exact H1|]. split; [exact H2|]. split; [exact Hblob|].
  split; [rewrite Hsize; vm_compute; reflexivity | vm_compute; reflexivity].
Defined.

(** C1, as stated, fails when recordings overlap.  With clicks on rendered
    buttons only: a recording is started and its encoder delivers 10 bytes;
    it is stopped, and a second recording is started before the [stop] event
    of the first; the first encoder flushes 4 more bytes and its [stop] event
    fires.  The encoder delivered 14 bytes between its start and its [stop]
    event, 10 of them before the stop request; the recorded blob holds 4. *)
Lemma overlap_loses_fragments :
  option_map (fun s => option_map blob_size (recordedBlob s))
    (runOffered overlap initialState) = Some (Some 4)
  /\ totalSize (filter nonEmpty (deliveredBy 0 overlap)) = 14
  /\ totalSize (filter nonEmpty (deliveredBy 0 (firstn 4 overlap))) = 10
  /\ option_map (fun s => option_map blob_size (recordedBlob s))
       (runOffered overlap initialState) <> Some (Some 14).
Proof.
  vm_compute. repeat split; discriminate.
Qed.

(** ** Overlapping recordings

    The theorems above take the recordings one after the other.  When
    [startRecording] is called after a stop request and before the [stop]
    event of that recording, the event finds the buffer the new start
    emptied: the first recording's blob holds only what came after the second
    start, and it shows up while the second recording runs. *)
Example start_before_stop_event :
  match run overlap initialState with
  | Some s =>
      sessionState s = Recording
      /\ hasArtifact s = true
      /\ option_map blob_size (recordedBlob s) = Some 4
  | None => False
  end.
Proof.
  vm_compute. repeat split.
Qed.

(** * Further properties of the handlers *)

(** ** The flags in the states the component reaches *)

(** In every state the component reaches: the camera flag is up exactly when
    a stream is held; the recording flag is up exactly when the held recorder
    is active, and exactly when an interval handle is held; and nothing
    records without the camera. *)
Theorem reachable_flags_coherent (s : State) :
  reachable s ->
  (isCameraActive s = true <-> mediaStreamRef s <> None)
  /\ (isRecording s = true <-> recorderActive s = true)
  /\ (isRecording s = true <-> timerIntervalRef s <> None)
  /\ (isRecording s = true -> isCameraActive s = true).
Proof.
  intros Hreach. apply reachable_wf, wf_iff in Hreach.
  destruct Hreach as (H1 & H2 & H3 & H4).
  split; [|split; [|split]].
  - rewrite H1. destruct (mediaStreamRef s); simpl; split; congruence.
  - rewrite H2. tauto.
  - rewrite <- H3. destruct (timerIntervalRef s); simpl; split; congruence.
  - exact H4.
Qed.

Lemma reachable_flags_coherent_witness :
  reachable fiveFragments
  /\ isRecording fiveFragments = true
  /\ timerIntervalRef fiveFragments <> None
  /\ isCameraActive fiveFragments = true.
Proof.
  assert (Hreach : reachable fiveFragments)
    by (exists toFiveFragments; vm_compute; reflexivity).
  destruct (reachable_flags_coherent fiveFragments Hreach) as (_ & _ & H3 & H4).
  split; [exact Hreach|]. split; [reflexivity|].
  split; [apply H3; reflexivity | apply H4; reflexivity].
Defined.

Lemma recorded_blob_is_webm_witness :
  exists blob,
    recordedBlob recordedNow = Some blob
    /\ (blob_type blob = "video/webm; codecs=vp9" \/ blob_type blob = "video/webm").
Proof.
  assert (Hreach : reachable recordedNow)
    by (exists (toFiveFragments ++ [EvStopRecording; EvStop 0]);
        vm_compute; reflexivity).
  eexists. split; [reflexivity|].
  apply (recorded_blob_is_webm recordedNow _ Hreach). reflexivity.
Defined.

(** ** The buttons *)

(** In every state the component reaches exactly one of Start Camera, Start
    Recording and Stop Recording is rendered, and it is the one the session
    state calls for. *)
Theorem one_button_rendered (s : State) :
  reachable s ->
  (offersStartCamera s, offersStartRecording s, offersStopRecording s)
  = match sessionState s with
    | Idle => (true, false, false)
    | CameraReady | Recorded => (false, true, false)
    | Recording => (false, false, true)
    end.
Proof.
  intros Hreach. apply reachable_wf, wf_iff in Hreach.
  destruct Hreach as (_ & _ & _ & H4).
  unfold offersStartCamera, offersStartRecording, offersStopRecording,
    sessionState.
  destruct (isCameraActive s), (isRecording s), (hasArtifact s); simpl;
    try reflexivity; specialize (H4 eq_refl); discriminate.
Qed.

Lemma one_button_rendered_witness :
  reachable fiveFragments
  /\ (offersStartCamera fiveFragments, offersStartRecording fiveFragments,
      offersStopRecording fiveFragments) = (false, false, true).
Proof.
  assert (Hreach : reachable fiveFragments)
    by (exists toFiveFragments; vm_compute; reflexivity).
  split; [exact Hreach|].
  exact (one_button_rendered fiveFragments Hreach).
Defined.

(** ** Acquiring the camera *)

(** When [getUserMedia] resolves, [startCamera] holds the stream, raises the
    camera flag, binds the stream to the video element if there is one,
    clears the error text and sets the status.  The session is then ready,
    unless a recording runs or is there.  It calls nothing: the tracks of a
    stream that was held before are not stopped.  The recorders, the buffer,
    the recorded blob, the timer and the label are as before. *)
Theorem startCamera_resolved (stream : MediaStream) (s : State) :
  let s' := startCamera (Resolved stream) s in
  mediaStreamRef s' = Some stream
  /\ isCameraActive s' = true
  /\ cameraError s' = EmptyString
  /\ status s' = "Click to Start Recording"
  /\ videoRef s' = match videoRef s with
                  | Some _ => Some (Some stream)
                  | None => None
                  end
  /\ sessionState s'
     = (if isRecording s then Recording
        else if hasArtifact s then Recorded else CameraReady)
  /\ calls s' = calls s
  /\ endedTracks s' = endedTracks s
  /\ recorders s' = recorders s
  /\ mediaRecorderRef s' = mediaRecorderRef s
  /\ recordedChunksRef s' = recordedChunksRef s
  /\ recordedBlob s' = recordedBlob s
  /\ isRecording s' = isRecording s
  /\ timerIntervalRef s' = timerIntervalRef s
  /\ timer s' = timer s.
Proof.
  destruct s as [[v|] ms mr ch tr st ca re bl stt ce ti rs iv nh et cs];
    cbv zeta; unfold startCamera, sessionState, hasArtifact, offersDownload;
    cbn; split_and; reflexivity.
Qed.

(** After [startCamera] the camera area shows the video alone when the
    promise resolved, and the error text, without the placeholder, when it
    was rejected, whatever the rejection carried. *)
Theorem camera_area_after_startCamera (result : GetUserMedia) (s : State) :
  let s' := startCamera result s in
  match result with
  | Resolved _ =>
      hidesVideo s' = false /\ showsError s' = false
      /\ showsPlaceholder s' = false
  | Rejected _ =>
      showsError s' = true /\ showsPlaceholder s' = false
      /\ hidesVideo s' = hidesVideo s
  end.
Proof.
  destruct result as [stream|error]; cbv zeta.
  - destruct s as [[v|] ms mr ch tr st ca re bl stt ce ti rs iv nh et cs];
      split_and; reflexivity.
  - unfold showsPlaceholder, showsError, hidesVideo, startCamera.
    destruct s; cbn. rewrite andb_false_r. split_and; reflexivity.
Qed.

(** ** Starting a recording that does not start *)

(** Without the camera (the flag is down or no stream is held)
    [startRecording] only sets the status: the recorded blob and the buffer
    are kept, no recorder is created, no timer started, nothing is called. *)
Theorem startRecording_without_camera (vp9 : bool) (outcome : EncoderOutcome)
    (now : Z) (s : State) :
  isCameraActive s = false \/ mediaStreamRef s = None ->
  let s' := startRecording vp9 outcome now s in
  s' = set_status "Camera not active" s
  /\ recordedBlob s' = recordedBlob s
  /\ recordedChunksRef s' = recordedChunksRef s
  /\ recorders s' = recorders s
  /\ timerIntervalRef s' = timerIntervalRef s
  /\ isRecording s' = isRecording s
  /\ sessionState s' = sessionState s
  /\ calls s' = calls s.
Proof.
  intros Hoff. cbv zeta. rewrite (startRecording_camera_off _ _ _ _ Hoff).
  destruct s; split_and; reflexivity.
Qed.

Lemma startRecording_without_camera_witness :
  status (startRecording true EncoderOk 1000 initialState) = "Camera not active"
  /\ recorders (startRecording true EncoderOk 1000 initialState) = [].
Proof.
  pose proof (startRecording_without_camera true EncoderOk 1000 initialState
                (or_introl eq_refl)) as H.
  cbv zeta in H. destruct H as (H1 & _ & _ & H2 & _).
  split; [rewrite H1; reflexivity | exact H2].
Defined.

Lemma startRecording_throws_timer (vp9 throwsAtStart : bool) (error : Thrown)
    (now : Z) (s : State) :
  let s' := startRecording vp9
              (if throwsAtStart then StartThrows error
               else ConstructorThrows error) now s in
  intervals s' = intervals s
  /\ timerIntervalRef s' = timerIntervalRef s
  /\ nextHandle s' = nextHandle s
  /\ mediaRecorderRef s' = mediaRecorderRef s
  /\ isRecording s' = isRecording s
  /\ mediaStreamRef s' = mediaStreamRef s.
Proof.
  cbv zeta. unfold startRecording.
  destruct (isCameraActive s); [destruct (mediaStreamRef s) eqn:Hms|];
    destruct throwsAtStart; destruct s; simpl in *; split_and;
    try reflexivity; congruence.
Qed.

(** When the browser refuses the encoder (the constructor throws, or
    [start] does), with the camera on and nothing recording: the status
    reports the failure with the error's message, the session is ready again
    with the camera still held, nothing records, no timer is started and the
    held recorder is the one before.  The buffer and the recorded blob of an
    earlier recording are gone all the same: they were dropped before the
    encoder was asked for. *)
Theorem startRecording_encoder_fails (vp9 throwsAtStart : bool)
    (error : Thrown) (now : Z) (s : State) :
  wf s = true ->
  isCameraActive s = true ->
  isRecording s = false ->
  let s' := startRecording vp9
              (if throwsAtStart then StartThrows error
               else ConstructorThrows error) now s in
  status s' = ("Failed to start recording: " ++ errorMessage error)%string
  /\ sessionState s' = CameraReady
  /\ hasArtifact s' = false
  /\ recordedChunksRef s' = []
  /\ isRecording s' = false
  /\ recorderActive s' = false
  /\ mediaRecorderRef s' = mediaRecorderRef s
  /\ timerIntervalRef s' = None
  /\ intervals s' = intervals s
  /\ mediaStreamRef s' = mediaStreamRef s
  /\ wf s' = true.
Proof.
  intros Hwf Hcam Hrec s'.
  assert (Hms : mediaStreamRef s <> None).
  { pose proof Hwf as H. apply wf_iff in H. destruct H as (H1 & _).
    rewrite Hcam in H1. destruct (mediaStreamRef s); discriminate. }
  assert (Hwf' : wf s' = true) by (apply startRecording_wf, Hwf).
  destruct (startRecording_throws_timer vp9 throwsAtStart error now s)
    as (Hiv & Hti & _ & Hmr & Hre & Hst).
  fold s' in Hiv, Hti, Hmr, Hre, Hst.
  destruct (startRecording_fields vp9
              (if throwsAtStart then StartThrows error
               else ConstructorThrows error) now s Hcam Hms)
    as (Hbuf & Hbl & Hca & _ & Hout).
  fold s' in Hbuf, Hbl, Hca, Hout.
  assert (Hstatus : status s'
                    = ("Failed to start recording: " ++ errorMessage error)%string)
    by (destruct throwsAtStart; destruct Hout as (_ & _ & _ & H); exact H).
  pose proof Hwf' as H. apply wf_iff in H. destruct H as (_ & G2 & G3 & _).
  rewrite Hre, Hrec in G2, G3.
  split; [exact Hstatus|].
  split; [unfold sessionState, hasArtifact, offersDownload;
          rewrite Hca, Hre, Hrec, Hbl; reflexivity|].
  split; [apply hasArtifact_false, Hbl|].
  split; [exact Hbuf|]. split; [congruence|]. split; [congruence|].
  split; [exact Hmr|].
  split; [destruct (timerIntervalRef s'); [discriminate | reflexivity]|].
  split; [exact Hiv|]. split; [exact Hst | exact Hwf'].
Qed.

Lemma startRecording_encoder_fails_witness :
  sessionState recordedNow = Recorded
  /\ sessionState (startRecording true
                     (ConstructorThrows (ThrownError "NotSupportedError"))
                     9000 recordedNow) = CameraReady
  /\ status (startRecording true
               (ConstructorThrows (ThrownError "NotSupportedError"))
               9000 recordedNow)
     = "Failed to start recording: NotSupportedError".
Proof.
  split; [reflexivity|].
  pose proof (startRecording_encoder_fails true false
                (ThrownError "NotSupportedError") 9000 recordedNow
                eq_refl eq_refl eq_refl) as H.
  cbv zeta in H. destruct H as (H1 & H2 & _).
  split; [exact H2 | exact H1].
Defined.

(** ** Stop requests *)

(** [stopRecording] stops the recorder, drops the flag and stops the timer,
    and nothing more: the status line (which goes on reading what it read
    until the [stop] event), the label, the error text, the buffer, the
    recorded blob, the camera and the stored start instant are as before, and
    the same recorder stays held. *)
Theorem stopRecording_frame (s : State) :
  let s' := stopRecording s in
  status s' = status s
  /\ timer s' = timer s
  /\ cameraError s' = cameraError s
  /\ recordedChunksRef s' = recordedChunksRef s
  /\ recordedBlob s' = recordedBlob s
  /\ mediaStreamRef s' = mediaStreamRef s
  /\ isCameraActive s' = isCameraActive s
  /\ videoRef s' = videoRef s
  /\ recordingStartTimeRef s' = recordingStartTimeRef s
  /\ endedTracks s' = endedTracks s
  /\ mediaRecorderRef s' = mediaRecorderRef s
  /\ length (recorders s') = length (recorders s).
Proof.
  cbv zeta.
  destruct (stopRecording_cases s)
    as [[_ ->]|(id & r & Href & Hnth & Hact & _ & ->)].
  - split_and; reflexivity.
  - destruct s as [v ms mr ch [handle|] st ca re bl stt ce ti rs iv nh et cs];
      unfold stopTimer, clearInterval, recorderStop; cbn;
      rewrite length_updateAt; split_and; reflexivity.
Qed.

(** Where the flags are coherent the two variants stop alike: testing the
    flag (the older variant) or the recorder's state gives the same state,
    for [stopRecording] and for the cleanup. *)
Theorem variants_stop_alike (s : State) :
  wf s = true ->
  Older.stopRecording s = stopRecording s
  /\ Older.cleanup s = cleanup s
  /\ Older.cleanupOf (isRecording s) s = cleanup s.
Proof.
  intros Hwf. apply wf_iff in Hwf. destruct Hwf as (_ & H2 & _).
  assert (Hstop : Older.stopRecording s = stopRecording s).
  { unfold Older.stopRecording.
    destruct (stopRecording_cases s)
      as [[Hin ->]|(id & r & Href & Hnth & Hact & Hra & ->)].
    - rewrite H2, Hin. destruct (mediaRecorderRef s); reflexivity.
    - rewrite H2, Hra, Href. reflexivity. }
  assert (Hidle : isRecording s = false -> stopRecording s = s).
  { intros Hrec. destruct (stopRecording_cases s)
      as [[_ E]|(id & r & _ & _ & _ & Hra & _)]; [exact E | congruence]. }
  split; [exact Hstop|]. split.
  - unfold Older.cleanup, cleanup. rewrite Hstop.
    destruct (isRecording s) eqn:Hrec; [reflexivity|].
    rewrite (Hidle eq_refl). reflexivity.
  - unfold Older.cleanupOf, cleanup.
    destruct (isRecording s) eqn:Hrec.
    + rewrite <- Hstop. unfold Older.stopRecordingOf, Older.stopRecording.
      rewrite Hrec. reflexivity.
    + rewrite (Hidle eq_refl). reflexivity.
Qed.

Lemma variants_stop_alike_witness :
  wf fiveFragments = true
  /\ Older.stopRecording fiveFragments = stopRecording fiveFragments
  /\ isRecording (Older.stopRecording fiveFragments) = false.
Proof.
  split; [reflexivity|].
  destruct (variants_stop_alike fiveFragments eq_refl) as (H & _).
  split; [exact H | reflexivity].
Defined.

(** ** The cleanup *)

(** With no stream held and no active recorder the cleanup does nothing at
    all: this is the cleanup React's strict mode runs right after the first
    mount. *)
Theorem cleanup_with_nothing_held (s : State) :
  mediaStreamRef s = None ->
  recorderActive s = false ->
  cleanup s = s.
Proof.
  intros Hms Hin. unfold cleanup.
  destruct (stopRecording_cases s) as [[_ ->]|(id & r & _ & _ & _ & Hra & _)];
    [|congruence].
  unfold stopCamera. rewrite Hms. reflexivity.
Qed.

Lemma cleanup_with_nothing_held_witness : cleanup initialState = initialState.
Proof.
  apply (cleanup_with_nothing_held initialState); reflexivity.
Defined.

(** ** The effect of the older variant *)

(** In the older variant every change of the recording flag runs the cleanup
    of the render before, and that cleanup releases the camera.  So when a
    recording starts with the camera on, the commit that follows stops the
    tracks of the stream and drops it, while the recording flag stays up and
    the recorder goes on: the recording has lost its camera, and the flags
    are no longer coherent. *)
Theorem older_effect_releases_camera (vp9 : bool) (now : Z)
    (stream : MediaStream) (s : State) :
  wf s = true ->
  isCameraActive s = true ->
  mediaStreamRef s = Some stream ->
  isRecording s = false ->
  let s' := Older.commit (isRecording s) (startRecording vp9 EncoderOk now s) in
  isRecording s' = true
  /\ recorderActive s' = true
  /\ mediaStreamRef s' = None
  /\ isCameraActive s' = false
  /\ endedTracks s' = endedTracks s ++ stream_tracks stream
  /\ sessionState s' = Idle
  /\ wf s' = false
  /\ (forall (captured : bool) (t : State),
        captured <> isRecording t ->
        mediaStreamRef (Older.commit captured t) = None).
Proof.
  intros Hwf Hcam Hms Hrec s'.
  assert (Hms' : mediaStreamRef s <> None) by congruence.
  destruct (startRecording_fields vp9 EncoderOk now s Hcam Hms')
    as (_ & _ & Hca1 & Hms1 & Hrec1 & _).
  pose proof (startRecording_wf vp9 EncoderOk now s Hwf) as Hwf1.
  set (s1 := startRecording vp9 EncoderOk now s) in *.
  assert (Hs' : s' = stopCamera s1).
  { unfold s', Older.commit, Older.cleanupOf. rewrite Hrec, Hrec1. reflexivity. }
  destruct (stopCamera_fields s1)
    as (G1 & G2 & _ & G4 & _ & G6 & _ & G8 & _).
  rewrite <- Hs' in G1, G2, G4, G6, G8.
  apply wf_iff in Hwf1. destruct Hwf1 as (W1 & W2 & _).
  assert (Hcam' : isCameraActive s' = false) by (apply G6, W1).
  assert (Hrec' : isRecording s' = true) by congruence.
  split; [exact Hrec'|]. split; [congruence|]. split; [exact G1|].
  split; [exact Hcam'|].
  split.
  { rewrite G8, Hms1, Hms.
    replace (endedTracks s1) with (endedTracks s); [reflexivity|].
    unfold s1, startRecording. rewrite Hcam, Hms. destruct s; reflexivity. }
  split; [unfold sessionState; rewrite Hcam'; reflexivity|].
  split.
  { unfold wf. rewrite Hrec', Hcam'. simpl.
    rewrite !andb_false_r. reflexivity. }
  intros captured t Hne. unfold Older.commit.
  destruct (Bool.eqb captured (isRecording t)) eqn:E.
  - apply eqb_prop in E. contradiction.
  - unfold Older.cleanupOf. apply stopCamera_fields.
Qed.

Lemma older_effect_releases_camera_witness :
  isRecording (Older.commit false (startRecording true EncoderOk 1000 cameraReady))
  = true
  /\ mediaStreamRef
       (Older.commit false (startRecording true EncoderOk 1000 cameraReady))
     = None.
Proof.
  pose proof (older_effect_releases_camera true 1000 frontCamera cameraReady
                eq_refl eq_refl eq_refl eq_refl) as H.
  cbv zeta in H. destruct H as (H1 & _ & H3 & _).
  split; [exact H1 | exact H3].
Defined.

(** ** The size the status line shows *)

Lemma totalSize_nonneg (l : list Blob) : 0 <= totalSize l.
Proof.
  induction l as [|b l IH]; simpl; [lia|]. unfold blob_size. lia.
Qed.

Lemma hundredths_two_digits (k : Z) :
  0 <= k < 100 -> String.length (padStart 2 "0" (String_ k)) = 2%nat.
Proof.
  intros Hk.
  assert (Hall : forallb
            (fun i => Nat.eqb (String.length (padStart 2 "0" (String_ (Z.of_nat i)))) 2)
            (seq 0 100) = true) by (vm_compute; reflexivity).
  rewrite forallb_forall in Hall.
  specialize (Hall (Z.to_nat k)).
  rewrite Z2Nat.id in Hall by lia.
  apply Nat.eqb_eq, Hall, in_seq. lia.
Qed.

(** When the [stop] event fires the status line reports the size of the
    recording in mebibytes with two decimals: the whole part, a dot and two
    digits.  The number shown is the size of all the fragments in the buffer,
    rounded to the nearest hundredth: it is off by half a hundredth at most. *)
Theorem onstop_status_size (mimeType : string) (s : State) :
  let size := totalSize (recordedChunksRef s) in
  let n := shownHundredths size in
  status (onstop mimeType s)
  = ("Recording complete! Size: "
     ++ (String_ (n / 100) ++ "." ++ padStart 2 "0" (String_ (n mod 100)))
     ++ " MB")%string
  /\ String.length (padStart 2 "0" (String_ (n mod 100))) = 2%nat
  /\ 0 <= n
  /\ -524288 < 1048576 * n - 100 * size <= 524288.
Proof.
  intros size n.
  pose proof (totalSize_nonneg (recordedChunksRef s)) as Hsize. fold size in Hsize.
  assert (Hn : 0 <= n) by (apply Z.div_pos; lia).
  split.
  - unfold onstop. cbv zeta.
    replace (status _) with
      ("Recording complete! Size: "
       ++ megabytesToFixed2 (blob_size (newBlob (recordedChunksRef s) mimeType))
       ++ " MB")%string by (destruct s; reflexivity).
    rewrite newBlob_size. reflexivity.
  - split; [apply hundredths_two_digits, Z.mod_pos_bound; lia|].
    split; [exact Hn|].
    unfold n, shownHundredths.
    pose proof (Z.div_mod (200 * size + 1048576) 2097152 ltac:(lia)) as Hdm.
    pose proof (Z.mod_pos_bound (200 * size + 1048576) 2097152 ltac:(lia)) as Hb.
    lia.
Qed.

(** ** One encoder and one timer at a time *)

(** The handlers that touch neither the timer nor the recorders. *)
Lemma startCamera_keeps_timer (result : GetUserMedia) (s : State) :
  intervals (startCamera result s) = intervals s
  /\ timerIntervalRef (startCamera result s) = timerIntervalRef s.
Proof.
  split_and; destruct result; field_same s.
Qed.

Lemma stopCamera_keeps_timer (s : State) :
  intervals (stopCamera s) = intervals s
  /\ timerIntervalRef (stopCamera s) = timerIntervalRef s.
Proof.
  split_and; field_same s.
Qed.

Lemma downloadVideo_keeps_timer (iso : string) (s : State) :
  intervals (snd (downloadVideo iso s)) = intervals s
  /\ timerIntervalRef (snd (downloadVideo iso s)) = timerIntervalRef s.
Proof.
  split_and; field_same s.
Qed.

Lemma ondataavailable_keeps_timer (data : Blob) (s : State) :
  intervals (ondataavailable data s) = intervals s
  /\ timerIntervalRef (ondataavailable data s) = timerIntervalRef s.
Proof.
  split_and; field_same s.
Qed.

Lemma onstop_keeps_timer (id : nat) (mimeType : string) (s : State) :
  intervals (onstop mimeType (dequeueStop id s)) = intervals s
  /\ timerIntervalRef (onstop mimeType (dequeueStop id s)) = timerIntervalRef s.
Proof.
  destruct s; split; reflexivity.
Qed.

Lemma timerCallback_keeps_timer (now : Z) (s : State) :
  intervals (timerCallback now s) = intervals s
  /\ timerIntervalRef (timerCallback now s) = timerIntervalRef s.
Proof.
  split_and; field_same s.
Qed.

Lemma startRecording_starts_timer (vp9 : bool) (now : Z) (s : State) :
  isCameraActive s = true ->
  mediaStreamRef s <> None ->
  intervals (startRecording vp9 EncoderOk now s) = intervals s ++ [nextHandle s].
Proof.
  intros Hcam Hms. unfold startRecording. rewrite Hcam.
  destruct (mediaStreamRef s) as [stream|]; [|congruence].
  destruct s; reflexivity.
Qed.

Lemma stopped_inactive (r : MediaRecorder) : notInactive (rec_state (stopped r)) = false.
Proof.
  unfold stopped. destruct (notInactive (rec_state r)) eqn:E; [reflexivity | exact E].
Qed.

(** What the clicks on rendered buttons keep. *)
Lemma step_exclusive (e : Event) (s s' : State) :
  wf s = true /\ intervals s = heldInterval s /\ soleEncoder s ->
  offered e s = true ->
  step e s = Some s' ->
  wf s' = true /\ intervals s' = heldInterval s' /\ soleEncoder s'.
Proof.
  intros (Hwf & Hiv & Hsole) Hoff Hstep.
  split; [apply (step_wf e s s' Hwf Hstep)|].
  assert (Hsame : forall t,
             intervals t = intervals s ->
             timerIntervalRef t = timerIntervalRef s ->
             recorders t = recorders s ->
             mediaRecorderRef t = mediaRecorderRef s ->
             intervals t = heldInterval t /\ soleEncoder t).
  { intros t E1 E2 E3 E4. unfold heldInterval, soleEncoder.
    rewrite E1, E2, E3, E4. split; [exact Hiv | exact Hsole]. }
  assert (Hstopcase : forall t id r,
             mediaRecorderRef s = Some id ->
             nth_error (recorders s) id = Some r ->
             t = stopTimer (set_isRecording false (recorderStop id s)) ->
             intervals t = heldInterval t /\ soleEncoder t).
  { intros t id r Href Hnth ->.
    destruct (stop_active_timer s id) as (E1 & E2 & E3 & E4).
    unfold heldInterval, soleEncoder. rewrite E1, E2, E3, E4. split.
    - unfold heldInterval in Hiv. rewrite Hiv.
      destruct (timerIntervalRef s) as [handle|]; [|reflexivity].
      simpl. rewrite Nat.eqb_refl. reflexivity.
    - intros i q Hq Hact. rewrite nth_error_updateAt in Hq.
      destruct (Nat.eqb_spec id i) as [->|Hne].
      + rewrite Hnth in Hq. simpl in Hq. inversion Hq; subst q.
        rewrite stopped_inactive in Hact. discriminate.
      + apply (Hsole i q Hq Hact). }
  step_cases Hstep.
  - destruct (startCamera_keeps_timer result s) as (E1 & E2).
    destruct (startCamera_keeps result s) as (E3 & _ & _ & _ & E4).
    apply Hsame; assumption.
  - simpl in Hoff. unfold offersStartRecording in Hoff.
    apply andb_true_iff in Hoff as [Hcam Hrec]. apply negb_true_iff in Hrec.
    pose proof Hwf as H. apply wf_iff in H. destruct H as (F1 & F2 & F3 & _).
    assert (Hms : mediaStreamRef s <> None)
      by (rewrite Hcam in F1; destruct (mediaStreamRef s); discriminate).
    assert (Htimer : timerIntervalRef s = None)
      by (rewrite Hrec in F3; destruct (timerIntervalRef s); [discriminate|reflexivity]).
    assert (Hnone : forall id r, nth_error (recorders s) id = Some r ->
                                 notInactive (rec_state r) = false).
    { intros id r Hnth. destruct (notInactive (rec_state r)) eqn:E; [|reflexivity].
      pose proof (Hsole id r Hnth E) as Href.
      unfold recorderActive, currentRecorder in F2.
      rewrite Href, Hnth, E in F2. congruence. }
    destruct (startRecording_fields vp9 outcome now s Hcam Hms)
      as (_ & _ & _ & _ & Hout).
    destruct outcome as [|error|error].
    + destruct Hout as (_ & Href' & (stream & _ & Hrs) & _ & _ & Hti).
      unfold heldInterval, soleEncoder.
      rewrite (startRecording_starts_timer vp9 now s Hcam Hms), Hti, Hrs, Href'.
      split.
      * rewrite Hiv. unfold heldInterval. rewrite Htimer. reflexivity.
      * intros id r Hnth Hact.
        apply nth_error_snoc_cases in Hnth as [Hold|[-> _]]; [|reflexivity].
        rewrite (Hnone id r Hold) in Hact. discriminate.
    + destruct Hout as (_ & Href' & Hrs & _).
      destruct (startRecording_throws_timer vp9 false error now s)
        as (E1 & E2 & _).
      apply Hsame; assumption.
    + destruct Hout as (_ & Href' & (r0 & Hrs & _ & Hst & _) & _).
      destruct (startRecording_throws_timer vp9 true error now s)
        as (E1 & E2 & _).
      unfold heldInterval, soleEncoder. simpl in E1, E2.
      rewrite E1, E2, Hrs, Href'. split; [exact Hiv|].
      intros id r Hnth Hact.
      apply nth_error_snoc_cases in Hnth as [Hold|[_ ->]].
      * apply (Hsole id r Hold Hact).
      * rewrite Hst in Hact. discriminate.
  - destruct (stopRecording_cases s)
      as [[_ ->]|(id & r & Href & Hnth & _ & _ & E)].
    + split; [exact Hiv | exact Hsole].
    + apply (Hstopcase _ id r Href Hnth E).
  - destruct (downloadVideo_keeps_timer iso s) as (E1 & E2).
    destruct (downloadVideo_keeps iso s) as (E3 & _ & _ & _ & _ & E4).
    apply Hsame; assumption.
  - destruct (ondataavailable_keeps_timer data s) as (E1 & E2).
    destruct (ondataavailable_keeps data s) as (E3 & _ & _ & _ & _ & E4).
    apply Hsame; assumption.
  - destruct (onstop_keeps_timer id (rec_mimeType r) s) as (E1 & E2).
    destruct (onstop_keeps id (rec_mimeType r) s) as (E3 & _ & _ & _ & _ & E4).
    unfold heldInterval, soleEncoder. rewrite E1, E2, E3, E4.
    split; [exact Hiv|].
    intros i q Hq Hact. rewrite nth_error_updateAt in Hq.
    destruct (Nat.eqb_spec id i) as [->|Hne].
    + rewrite Hnth in Hq. simpl in Hq. inversion Hq; subst q.
      apply (Hsole i r Hnth). exact Hact.
    + apply (Hsole i q Hq Hact).
  - destruct (timerCallback_keeps_timer now s) as (E1 & E2).
    destruct (timerCallback_keeps now s) as (E3 & _ & _ & _ & _ & E4).
    apply Hsame; assumption.
Qed.

(** As long as every click is on a button that is rendered (no start while a
    recording runs), there is one encoder and one timer at most: the running
    intervals are the held one and no other, only the held recorder can be
    active, the timer can tick only while the recording flag is up, and when
    it is down every recorder is inactive. *)
Theorem offered_clicks_keep_one_encoder (tr : list Event) (s : State) :
  runOffered tr initialState = Some s ->
  intervals s = heldInterval s
  /\ soleEncoder s
  /\ (forall handle now,
        step (EvTick handle now) s <> None -> isRecording s = true)
  /\ (isRecording s = false ->
      forall id r, nth_error (recorders s) id = Some r -> rec_state r = inactive).
Proof.
  intros Hrun.
  assert (Hinv : wf s = true /\ intervals s = heldInterval s /\ soleEncoder s).
  { assert (Hgen : forall tr s0 s1,
               wf s0 = true /\ intervals s0 = heldInterval s0 /\ soleEncoder s0 ->
               runOffered tr s0 = Some s1 ->
               wf s1 = true /\ intervals s1 = heldInterval s1 /\ soleEncoder s1).
    { clear. intros tr. induction tr as [|e tr IH]; intros s0 s1 Hinv Hrun;
        simpl in Hrun.
      - inversion Hrun; subst. exact Hinv.
      - destruct (offered e s0) eqn:Hoff; [|discriminate].
        destruct (step e s0) as [s2|] eqn:Hstep; [|discriminate].
        apply (IH s2 s1); [|exact Hrun].
        apply (step_exclusive e s0 s2 Hinv Hoff Hstep). }
    apply (Hgen tr initialState s); [|exact Hrun].
    split; [reflexivity|]. split; [reflexivity|].
    intros id r Hnth. destruct id; discriminate. }
  destruct Hinv as (Hwf & Hiv & Hsole).
  apply wf_iff in Hwf. destruct Hwf as (_ & F2 & F3 & _).
  split; [exact Hiv|]. split; [exact Hsole|]. split.
  - intros handle now Htick. simpl in Htick. rewrite Hiv in Htick.
    unfold heldInterval in Htick. rewrite <- F3.
    destruct (timerIntervalRef s); [reflexivity|].
    simpl in Htick. congruence.
  - intros Hrec id r Hnth.
    destruct (notInactive (rec_state r)) eqn:E.
    + pose proof (Hsole id r Hnth E) as Href.
      unfold recorderActive, currentRecorder in F2.
      rewrite Href, Hnth, E in F2. congruence.
    + destruct (rec_state r); [reflexivity | discriminate | discriminate].
Qed.

Lemma offered_clicks_keep_one_encoder_witness :
  runOffered toFiveFragments initialState = Some fiveFragments
  /\ intervals fiveFragments = [1%nat]
  /\ isRecording fiveFragments = true.
Proof.
  assert (Hrun : runOffered toFiveFragments initialState = Some fiveFragments)
    by (vm_compute; reflexivity).
  destruct (offered_clicks_keep_one_encoder toFiveFragments fiveFragments Hrun)
    as (Hiv & _ & Htick & _).
  split; [exact Hrun|]. split; [rewrite Hiv; reflexivity|].
  apply (Htick 1%nat 2000). vm_compute. discriminate.
Defined.
